(** * User-defined struct types of the SystemRDL compiler

    A shallow embedding of [systemrdl/rdltypes/user_struct.py].

    The Python module builds struct types as run-time class objects
    ([type(name, (cls,), classdict)]) and struct values as instances of
    those classes.  The embedding therefore keeps an explicit object heap:
    class objects, dict objects and instance objects live at addresses, a
    class attribute is resolved along the class's [__mro__], and a dict that
    is stored in an attribute is stored by reference. *)

From Stdlib Require Import ZArith HexadecimalString.
From stdpp Require Import base option list strings gmap sets relations.

Local Open Scope string_scope.
Local Open Scope list_scope.
Local Set Warnings "-register-all".

(** ** Python values and objects *)

Abbreviation addr := nat (only parsing).

(** The values that travel through the module: member types
    ([PreElabRDLType]) and member values ([Any]) are opaque to it, so a small
    universe of immediate values and object references is enough. *)
Inductive PyVal :=
| PyNone
| PyBool (b : bool)
| PyInt (z : Z)
| PyStr (s : string)
| PyRef (a : addr).

(** A [dict] / [OrderedDict] with string keys: insertion-ordered entries. *)
Abbreviation pydict := (list (string * PyVal)) (only parsing).

(** [d.keys()] *)
Definition dict_keys (d : pydict) : list string := d.*1.

(** [d[k]] ([None] stands for [KeyError]) *)
Fixpoint dict_get (k : string) (d : pydict) : option PyVal :=
  match d with
  | [] => None
  | (k', v) :: rest => if decide (k = k') then Some v else dict_get k rest
  end.

(** [k in d] *)
Definition dict_contains (k : string) (d : pydict) : bool :=
  bool_decide (is_Some (dict_get k d)).

(** [d[k] = v]: an existing key keeps its position, a new key goes last. *)
Fixpoint dict_setitem (k : string) (v : PyVal) (d : pydict) : pydict :=
  match d with
  | [] => [(k, v)]
  | (k', v') :: rest =>
      if decide (k = k') then (k', v) :: rest
      else (k', v') :: dict_setitem k v rest
  end.

(** [d.update(other)]: one [d[k] = v] per entry of [other], in its order. *)
Definition dict_update (d other : pydict) : pydict :=
  foldl (λ acc kv, dict_setitem kv.1 kv.2 acc) d other.

(** [set(keys)] *)
Definition py_set (ks : list string) : gset string := list_to_set ks.

(** ** The scope handle ([comp.Component])

    [component.py] is not part of this module; the struct type only needs a
    scope's name, its own enclosing scope and whether it is the root. *)
Inductive Component :=
| mkComponent (is_Root : bool) (_scope_name : string)
              (parent_scope : option Component).

Definition is_Root (c : Component) : bool :=
  match c with mkComponent r _ _ => r end.
Definition _scope_name (c : Component) : string :=
  match c with mkComponent _ n _ => n end.
Definition parent_scope (c : Component) : option Component :=
  match c with mkComponent _ _ p => p end.

(** [if s:] on a string *)
Definition str_truthy (s : string) : bool :=
  match s with EmptyString => false | _ => true end.

(** Modelled from the spec: [Component.get_scope_path] of [component.py],
    which is outside this module.  The spec (4.1, 6) gives it as the same
    recursion as the struct's: no enclosing scope, or an enclosing root
    scope, gives the empty path; otherwise the enclosing scope's path,
    joined by the separator with the enclosing scope's name. *)
Fixpoint Component_get_scope_path (c : Component) (scope_separator : string)
  : string :=
  match c with
  | mkComponent _ _ None => ""
  | mkComponent _ _ (Some p) =>
      if is_Root p then ""
      else
        let parent_path := Component_get_scope_path p scope_separator in
        if str_truthy parent_path
        then parent_path +:+ scope_separator +:+ _scope_name p
        else _scope_name p
  end.

(** ** Heap objects *)

(** A class object.  The three optional fields are the entries
    ['_members'], ['_is_abstract'] and ['_parent_scope'] of the class's own
    [__dict__]; [None] means the class does not define the attribute itself
    and a read falls through to the next class of the MRO. *)
Record ClassObj := mkClass {
  cls_name : string;                             (* __name__ *)
  cls_base : option addr;                        (* __bases__ *)
  cls_mro : list addr;                           (* __mro__ *)
  cls_members : option addr;                     (* '_members' *)
  cls_is_abstract : option bool;                 (* '_is_abstract' *)
  cls_parent_scope : option (option Component);  (* '_parent_scope' *)
}.

(** An instance: its class and the entry ['_values'] of its [__dict__]. *)
Record InstObj := mkInst {
  inst_class : addr;
  inst_values : option addr;
}.

Inductive Obj :=
| OClass (c : ClassObj)
| ODict (d : list (string * PyVal))
| OInst (i : InstObj).

Abbreviation heap := (list Obj) (only parsing).

Definition class_at (h : heap) (a : addr) : option ClassObj :=
  match h !! a with Some (OClass c) => Some c | _ => None end.

Definition dict_at (h : heap) (a : addr) : option (list (string * PyVal)) :=
  match h !! a with Some (ODict d) => Some d | _ => None end.

Definition inst_at (h : heap) (a : addr) : option InstObj :=
  match h !! a with Some (OInst i) => Some i | _ => None end.

(** Attribute resolution on a class: the first class of the MRO whose own
    [__dict__] has the entry. *)
Fixpoint mro_lookup {A} (field : ClassObj → option A) (h : heap)
  (mro : list addr) : option A :=
  match mro with
  | [] => None
  | k :: rest =>
      match class_at h k with
      | None => None
      | Some c =>
          match field c with
          | Some v => Some v
          | None => mro_lookup field h rest
          end
      end
  end.

Definition class_getattr {A} (field : ClassObj → option A) (h : heap)
  (cls : addr) : option A :=
  c ← class_at h cls; mro_lookup field h (cls_mro c).

(** ** Exceptions and the heap monad *)

Inductive exn :=
| TypeError (msg : string)
| ValueError (msg : string)
| AttributeError (msg : string)
| KeyError (key : string)
| RecursionError.

Inductive outcome (A : Type) :=
| Return (a : A)
| Raise (e : exn).
Arguments Return {A} a.
Arguments Raise {A} e.

(** A computation reads and writes the heap and returns or raises; the heap
    after a raise is kept, as writes done before it are not undone. *)
Definition M (A : Type) : Type := heap → outcome A * heap.

#[global] Instance M_ret : MRet M := λ A a h, (Return a, h).
#[global] Instance M_bind : MBind M := λ A B f m h,
  match m h with
  | (Return a, h') => f a h'
  | (Raise e, h') => (Raise e, h')
  end.

Definition raise {A} (e : exn) : M A := λ h, (Raise e, h).
Definition get_heap : M heap := λ h, (Return h, h).

(** Allocation of a new object: the next free address. *)
Definition alloc (o : Obj) : M addr := λ h, (Return (length h), h ++ [o]).

(** Overwrite of the object at an address. *)
Definition store (a : addr) (o : Obj) : M unit :=
  λ h, (Return tt, <[a := o]> h).

Definition from_option {A} (e : exn) (o : option A) : M A :=
  match o with Some a => mret a | None => raise e end.

Definition read_class (a : addr) : M ClassObj :=
  h ← get_heap; from_option (TypeError "not a class") (class_at h a).

Definition read_dict (a : addr) : M (list (string * PyVal)) :=
  h ← get_heap; from_option (TypeError "not a dict") (dict_at h a).

(** [x.keys()]: an object that is not a dict has no such method. *)
Definition keys_at (a : addr) : M (list string) :=
  h ← get_heap;
  from_option (AttributeError "keys") (dict_keys <$> dict_at h a).

Definition read_inst (a : addr) : M InstObj :=
  h ← get_heap; from_option (TypeError "not an instance") (inst_at h a).

(** [cls.<attr>] *)
Definition read_class_attr {A} (attr : string) (field : ClassObj → option A)
  (cls : addr) : M A :=
  h ← get_heap; from_option (AttributeError attr) (class_getattr field h cls).

(** [self.<attr>] for an attribute that the instance's own [__dict__] does
    not hold: resolved on [type(self)]. *)
Definition read_inst_class_attr {A} (attr : string)
  (field : ClassObj → option A) (self : addr) : M A :=
  i ← read_inst self; read_class_attr attr field (inst_class i).

(** ** The class [UserStruct]

    The module's class body allocates one empty [OrderedDict] for
    [_members] and defines the class with [_is_abstract = True] and
    [_parent_scope = None], on top of the built-in [object]. *)

Definition object_ : addr := 0.
Definition UserStruct_members : addr := 1.
Definition UserStruct : addr := 2.

Definition heap_init : heap :=
  [ OClass (mkClass "object" None [object_] None None None);
    ODict [];
    OClass (mkClass "UserStruct" (Some object_) [UserStruct; object_]
              (Some UserStruct_members) (Some true) (Some None)) ].

(** [UserStruct.define_new] (classmethod):
<<
    m = OrderedDict(cls._members)
    if set(m.keys()) & set(members.keys()):
        raise ValueError("'members' contains keys that overlap with parent")
    m.update(members)
    classdict = { '_members' : m, '_is_abstract': is_abstract }
    newcls = type(name, (cls,), classdict)
    return newcls
>>
    [members] is only read, so it is passed by value. *)
Definition define_new (cls : addr) (name : string) (members : pydict)
  (is_abstract : bool) : M addr :=
  cls_members_ref ← read_class_attr "_members" cls_members cls;
  inherited ← read_dict cls_members_ref;
  m ← alloc (ODict inherited);
  m_keys ← keys_at m;
  if bool_decide (py_set m_keys ∩ py_set (dict_keys members) ≠ ∅)
  then raise (ValueError "'members' contains keys that overlap with parent")
  else
    m_now ← read_dict m;
    store m (ODict (dict_update m_now members));;
    base ← read_class cls;
    h ← get_heap;
    alloc (OClass {| cls_name := name;
                     cls_base := Some cls;
                     cls_mro := length h :: cls_mro base;
                     cls_members := Some m;
                     cls_is_abstract := Some is_abstract;
                     cls_parent_scope := None |}).

(** [UserStruct.__init__]:
<<
    if self._is_abstract:
        raise TypeError("Cannot create instance of an abstract struct type")
    if set(values.keys()) != set(self._members.keys()):
        raise ValueError("Cannot map 'values' to this struct")
    self._values = values
>>
    [values] is kept by reference. *)
Definition __init__ (self : addr) (values : addr) : M unit :=
  abstract ← read_inst_class_attr "_is_abstract" cls_is_abstract self;
  if (abstract : bool)
  then raise (TypeError "Cannot create instance of an abstract struct type")
  else
    values_keys ← keys_at values;
    members_ref ← read_inst_class_attr "_members" cls_members self;
    members_keys ← keys_at members_ref;
    if bool_decide (py_set values_keys ≠ py_set members_keys)
    then raise (ValueError "Cannot map 'values' to this struct")
    else
      i ← read_inst self;
      store self (OInst {| inst_class := inst_class i;
                           inst_values := Some values |}).

(** The call [cls(values)]: a fresh instance of [cls], then [__init__]. *)
Definition construct (cls : addr) (values : addr) : M addr :=
  self ← alloc (OInst {| inst_class := cls; inst_values := None |});
  __init__ self values;;
  mret self.

(** [UserStruct.__getattr__], the hook Python calls for an attribute that
    ordinary lookup does not find:
<<
    if name == "__setstate__":
        raise AttributeError(name)
    if name in self._values:
        return self._values[name]
    else:
        raise AttributeError("'%s' object has no attribute '%s'"
                             % (type(self).__name__, name))
>>
    On an instance whose [_values] was never assigned, [self._values] itself
    re-enters the hook without end. *)
Definition __getattr__ (self : addr) (name : string) : M PyVal :=
  if bool_decide (name = "__setstate__")
  then raise (AttributeError name)
  else
    i ← read_inst self;
    match inst_values i with
    | None => raise RecursionError
    | Some values_ref =>
        vs ← read_dict values_ref;
        if dict_contains name vs
        then from_option (KeyError name) (dict_get name vs)
        else
          c ← read_class (inst_class i);
          raise (AttributeError ("'" +:+ cls_name c
                                 +:+ "' object has no attribute '"
                                 +:+ name +:+ "'"))
    end.

(** [UserStruct._set_parent_scope] (classmethod):
    [cls._parent_scope = scope], an entry of [cls]'s own [__dict__]. *)
Definition _set_parent_scope (cls : addr) (scope : Component) : M unit :=
  c ← read_class cls;
  store cls (OClass {| cls_name := cls_name c;
                       cls_base := cls_base c;
                       cls_mro := cls_mro c;
                       cls_members := cls_members c;
                       cls_is_abstract := cls_is_abstract c;
                       cls_parent_scope := Some (Some scope) |}).

(** [UserStruct.get_parent_scope] (classmethod):
    [return getattr(cls, "_parent_scope", None)]. *)
Definition get_parent_scope (h : heap) (cls : addr) : option Component :=
  default None (class_getattr cls_parent_scope h cls).

Definition default_scope_separator : string := "::".

(** [UserStruct.get_scope_path] (classmethod), [scope_separator="::"]:
<<
    parent_scope = cls.get_parent_scope()
    if parent_scope is None:
        return ""
    elif isinstance(parent_scope, comp.Root):
        return ""
    else:
        parent_path = parent_scope.get_scope_path(scope_separator)
        if parent_path:
            return parent_path + scope_separator + parent_scope._scope_name
        else:
            return parent_scope._scope_name
>> *)
Definition get_scope_path (h : heap) (cls : addr)
  (scope_separator : option string) : string :=
  let scope_separator := default default_scope_separator scope_separator in
  match get_parent_scope h cls with
  | None => ""
  | Some parent_scope =>
      if is_Root parent_scope then ""
      else
        let parent_path :=
          Component_get_scope_path parent_scope scope_separator in
        if str_truthy parent_path
        then parent_path +:+ scope_separator +:+ _scope_name parent_scope
        else _scope_name parent_scope
  end.

(** [inspect.isclass(t)] *)
Definition isclass (h : heap) (t : PyVal) : bool :=
  match t with
  | PyRef a => bool_decide (is_Some (class_at h a))
  | _ => false
  end.

(** [issubclass(t, cls)] for a class [t]: [cls] occurs in [t.__mro__]. *)
Definition issubclass (h : heap) (t : PyVal) (cls : addr) : bool :=
  match t with
  | PyRef a =>
      match class_at h a with
      | Some c => bool_decide (cls ∈ cls_mro c)
      | None => false
      end
  | _ => false
  end.

(** [is_user_struct]:
    [return inspect.isclass(t) and issubclass(t, UserStruct)]. *)
Definition is_user_struct (h : heap) (t : PyVal) : bool :=
  isclass h t && issubclass h t UserStruct.

(** ** Views of the heap used in the statements *)

(** The member mapping a descriptor resolves to: [cls._members], read. *)
Definition members_of (h : heap) (cls : addr)
  : option (list (string * PyVal)) :=
  class_getattr cls_members h cls ≫= dict_at h.

(** [cls._members.keys()] *)
Definition member_names (h : heap) (cls : addr) : option (list string) :=
  dict_keys <$> members_of h cls.

(** [cls._is_abstract] *)
Definition is_abstract_of (h : heap) (cls : addr) : option bool :=
  class_getattr cls_is_abstract h cls.

(** The value mapping an instance holds: [self._values], read. *)
Definition values_of (h : heap) (self : addr)
  : option (list (string * PyVal)) :=
  i ← inst_at h self; inst_values i ≫= dict_at h.

(** ** Runs of the module and their frame *)

(** The class object [type(name, (cls,), classdict)] builds. *)
Definition derived_class (name : string) (cls : nat) (base : ClassObj)
  (self m : nat) (is_abstract : bool) : ClassObj :=
  {| cls_name := name;
     cls_base := Some cls;
     cls_mro := self :: cls_mro base;
     cls_members := Some m;
     cls_is_abstract := Some is_abstract;
     cls_parent_scope := None |}.

(** Two states of one class that differ at most in the class's own
    [_parent_scope] entry. *)
Definition same_layout (c c' : ClassObj) : Prop :=
  cls_name c' = cls_name c ∧ cls_base c' = cls_base c
  ∧ cls_mro c' = cls_mro c ∧ cls_members c' = cls_members c
  ∧ cls_is_abstract c' = cls_is_abstract c.

(** The frame of the module's operations: no dict and no instance that
    exists is rewritten, and a class that exists keeps everything but its
    own [_parent_scope] entry. *)
Record frame (h h' : list Obj) : Prop := mkFrame {
  frame_dict : ∀ a d, dict_at h a = Some d → dict_at h' a = Some d;
  frame_inst : ∀ a i, inst_at h a = Some i → inst_at h' a = Some i;
  frame_class : ∀ a c, class_at h a = Some c →
                ∃ c', class_at h' a = Some c' ∧ same_layout c c';
}.

(** One step of a run is one call into the module, returned or raised, or
    the caller building a new dict (the value map of a struct literal). *)
Inductive step : list Obj → list Obj → Prop :=
| step_define_new cls name members is_abstract h :
    step h (define_new cls name members is_abstract h).2
| step_construct cls values h :
    step h (construct cls values h).2
| step_set_parent_scope cls scope h :
    step h (_set_parent_scope cls scope h).2
| step_getattr self name h :
    step h (__getattr__ self name h).2
| step_new_dict d h :
    step h (h ++ [ODict d]).

(** The heaps a compilation can be in. *)
Definition reachable (h : list Obj) : Prop := rtc step heap_init h.

(** ** The shape of the class table *)

(** [a] is a class whose MRO holds [UserStruct]: a struct type descriptor. *)
Definition is_descriptor (h : list Obj) (a : nat) : Prop :=
  ∃ c, class_at h a = Some c ∧ UserStruct ∈ cls_mro c.

(** [b] is the base [a] was derived from. *)
Definition base_of (h : list Obj) (a b : nat) : Prop :=
  ∃ c, class_at h a = Some c ∧ cls_base c = Some b.

(** [a] is [b] or is derived from it through any number of bases. *)
Definition derives_from (h : list Obj) : nat → nat → Prop :=
  rtc (base_of h).

(** What every heap of a run satisfies. *)
Record struct_inv (h : list Obj) : Prop := mkInv {
  (* [UserStruct] carries [_members] and [_is_abstract] itself *)
  inv_root : ∃ u r d b,
    class_at h UserStruct = Some u ∧ cls_members u = Some r
    ∧ dict_at h r = Some d ∧ cls_is_abstract u = Some b;
  (* the MRO of a class is the class followed by the MRO of its base *)
  inv_mro : ∀ a c, class_at h a = Some c →
    match cls_base c with
    | None => cls_mro c = [a]
    | Some b => ∃ bc, class_at h b = Some bc ∧ cls_mro c = a :: cls_mro bc
    end;
  (* a descriptor's members start with the members of its base *)
  inv_prefix : ∀ a c b, class_at h a = Some c → cls_base c = Some b →
    is_descriptor h b →
    ∃ db dc, members_of h b = Some db ∧ members_of h a = Some dc
             ∧ db `prefix_of` dc;
}.

(** A class that appears in a heap is either one the older heap had, up to
    its [_parent_scope], or a class freshly derived from one. *)
Definition fresh_class (h h' : list Obj) (a : nat) (c' : ClassObj) : Prop :=
  class_at h a = None ∧
  ∃ b bc r d0 d,
    cls_base c' = Some b ∧ class_at h b = Some bc
    ∧ cls_mro c' = a :: cls_mro bc ∧ cls_members c' = Some r
    ∧ dict_at h' r = Some d ∧ members_of h b = Some d0 ∧ d0 `prefix_of` d.

(** Every class of [h'] comes from [h] in one of these two ways. *)
Definition classes_from (h h' : list Obj) : Prop :=
  ∀ a c', class_at h' a = Some c' →
    (∃ c, class_at h a = Some c ∧ same_layout c c') ∨ fresh_class h h' a c'.

(** The flattened member-name set of a descriptor: the names some
    descriptor on its derivation chain (itself included) resolves. *)
Definition inherited_name (h : list Obj) (B : nat) (k : string) : Prop :=
  ∃ A dA, derives_from h B A ∧ is_descriptor h A
          ∧ members_of h A = Some dA ∧ k ∈ dict_keys dA.

(** ** Heaps of the running examples *)

(** [Point = UserStruct.define_new("Point", {x: .., y: ..})] *)
Definition heap_point : list Obj :=
  (define_new UserStruct "Point" [("x", PyInt 0); ("y", PyInt 0)] false
     heap_init).2.

Definition Point : nat := 4.

(** [Point3 = Point.define_new("Point3", {z: ..})] *)
Definition heap_point3 : list Obj :=
  (define_new Point "Point3" [("z", PyInt 0)] false heap_point).2.

Definition Point3 : nat := 6.

(** The value map [{y: 4, x: 3}], built by the caller. *)
Definition heap_xy : list Obj :=
  heap_point ++ [ODict [("y", PyInt 4); ("x", PyInt 3)]].

Definition xy : nat := 5.




(** Scope ["b"] inside scope ["a"] inside the root. *)
Definition scope_a : Component :=
  mkComponent false "a" (Some (mkComponent true "root" None)).

Definition scope_b : Component := mkComponent false "b" (Some scope_a).

(** [Point._set_parent_scope(b)] *)
Definition heap_scoped : list Obj :=
  (_set_parent_scope Point scope_b heap_point).2.

(** ** The rest of the module, and its caller *)

(** ['%x' % n]: lower-case hexadecimal without prefix. *)
Definition hex (n : nat) : string :=
  HexadecimalString.NilZero.string_of_uint (Nat.to_hex_uint n).

(** [UserStruct.__repr__]:
<<
    return "<struct '%s' %s at 0x%x>" % (
        self.__class__.__qualname__,
        "(%s)" % ", ".join(self._members.keys()),
        id(self)
    )
>>
    [type(name, ...)] gives a class [__qualname__ = __name__ = name]; what
    [id] returns is the runtime's choice, so it is a parameter. *)
Definition __repr__ (py_id : addr → nat) (self : addr) : M string :=
  i ← read_inst self;
  c ← read_class (inst_class i);
  members_ref ← read_inst_class_attr "_members" cls_members self;
  names ← keys_at members_ref;
  mret ("<struct '" +:+ cls_name c +:+ "' "
        +:+ ("(" +:+ String.concat ", " names +:+ ")")
        +:+ " at 0x" +:+ hex (py_id self) +:+ ">").

(** [d[k] = v] done by the owner of a dict, outside the module. *)
Definition caller_setitem (d : addr) (k : string) (v : PyVal) : M unit :=
  ds ← read_dict d;
  store d (ODict (dict_setitem k v ds)).

(** The classes of a run: [object], which defines no [_members], and
    classes with [UserStruct] in their MRO. *)
Definition only_struct_classes (h : list Obj) : Prop :=
  (∃ o, class_at h object_ = Some o ∧ cls_members o = None
        ∧ cls_mro o = [object_])
  ∧ ∀ a c, class_at h a = Some c → a = object_ ∨ UserStruct ∈ cls_mro c.

(** An instance that holds a value map is of a concrete type and holds
    exactly one entry per member name of its type. *)
Definition value_ok (h : list Obj) (i : InstObj) : Prop :=
  ∀ V, inst_values i = Some V →
    ∃ vs ms,
      is_abstract_of h (inst_class i) = Some false
      ∧ dict_at h V = Some vs
      ∧ members_of h (inst_class i) = Some ms
      ∧ py_set (dict_keys vs) = py_set (dict_keys ms).

(** ** Attribute access on a value

    The program reads a member as an attribute of the value ([prop.foo],
    [getattr(prop, "bar")]).  Python looks the name up the ordinary way
    first, in the instance's [__dict__] and in the classes of the MRO, and
    calls [__getattr__] only when that finds nothing. *)






Section attribute_access.
(** The names the runtime answers on every object, whatever its class
    defines ([__class__], [__dict__], [__doc__], ...).  Which they are is a
    matter of the Python version, not of this module. *)
Variable runtime_attr : string → bool.


End attribute_access.





(** ** Facts about dicts *)

Section dict_facts.
Implicit Types (d other : list (string * PyVal)) (k : string) (v : PyVal).

Lemma dict_get_is_Some k d : is_Some (dict_get k d) ↔ k ∈ dict_keys d.
Proof.
  unfold dict_keys. induction d as [|[k' v'] d IH]; simpl.
  - split; [intros [? ?]; discriminate | intros H; inversion H].
  - destruct (decide (k = k')) as [->|Hne].
    + split; [intros _; left | eauto].
    + rewrite IH. split; [by right | intros H; by inversion H; subst].
Qed.

Lemma dict_get_None k d : dict_get k d = None ↔ k ∉ dict_keys d.
Proof. rewrite <- dict_get_is_Some, eq_None_not_Some. done. Qed.


Lemma dict_keys_app d other :
  dict_keys (d ++ other) = dict_keys d ++ dict_keys other.
Proof. unfold dict_keys. apply fmap_app. Qed.

(** Assigning a key the dict does not have appends the entry. *)
Lemma dict_setitem_fresh k v d :
  k ∉ dict_keys d → dict_setitem k v d = d ++ [(k, v)].
Proof.
  unfold dict_keys. induction d as [|[k' v'] d IH]; simpl; intros Hk; [done|].
  destruct (decide (k = k')) as [->|Hne].
  - exfalso. apply Hk. left.
  - f_equal. apply IH. intros Hin. apply Hk. by right.
Qed.

(** [update] with keys that are new to the dict and pairwise distinct
    appends the entries in their order. *)
Lemma dict_update_disjoint other : ∀ d,
  NoDup (dict_keys other) →
  (∀ k, k ∈ dict_keys other → k ∉ dict_keys d) →
  dict_update d other = d ++ other.
Proof.
  unfold dict_update.
  induction other as [|[k v] other IH]; intros d Hnd Hdisj; simpl.
  - by rewrite app_nil_r.
  - unfold dict_keys in Hnd. simpl in Hnd. apply NoDup_cons in Hnd as [Hk Hnd].
    rewrite dict_setitem_fresh.
    2:{ apply Hdisj. unfold dict_keys. simpl. left. }
    rewrite IH; [by rewrite <- app_assoc | done |].
    intros k' Hk'. rewrite dict_keys_app. intros Hin.
    apply elem_of_app in Hin as [Hin|Hin].
    + eapply Hdisj; [|exact Hin]. unfold dict_keys. simpl. by right.
    + unfold dict_keys in Hin. simpl in Hin.
      apply list_elem_of_singleton in Hin. subst k'. by apply Hk.
Qed.

(** [set(a) & set(b)] is non-empty exactly when a key is in both. *)
Lemma py_set_intersect (ks1 ks2 : list string) :
  py_set ks1 ∩ py_set ks2 ≠ ∅ ↔ ∃ k, k ∈ ks1 ∧ k ∈ ks2.
Proof.
  unfold py_set. split.
  - intros Hne. apply set_choose_L in Hne as [k Hk]. exists k. set_solver.
  - intros [k [H1 H2]]. set_solver.
Qed.

Lemma py_set_eq (ks1 ks2 : list string) :
  py_set ks1 = py_set ks2 ↔ ∀ k, k ∈ ks1 ↔ k ∈ ks2.
Proof. unfold py_set. set_solver. Qed.
End dict_facts.

(** ** Facts about the heap *)

Ltac unfold_M :=
  unfold read_inst_class_attr, read_class_attr, read_class, read_dict,
    keys_at, read_inst, from_option, alloc, store, raise, get_heap,
    mbind, M_bind, mret, M_ret in *.

Section heap_facts.
Implicit Types (h : list Obj) (a : nat) (o : Obj).

Lemma class_at_Some h a c : class_at h a = Some c ↔ h !! a = Some (OClass c).
Proof.
  unfold class_at. destruct (h !! a) as [[]|]; split; intros; simplify_eq; done.
Qed.

Lemma dict_at_Some h a d : dict_at h a = Some d ↔ h !! a = Some (ODict d).
Proof.
  unfold dict_at. destruct (h !! a) as [[]|]; split; intros; simplify_eq; done.
Qed.

Lemma inst_at_Some h a i : inst_at h a = Some i ↔ h !! a = Some (OInst i).
Proof.
  unfold inst_at. destruct (h !! a) as [[]|]; split; intros; simplify_eq; done.
Qed.

(** Objects of a heap stay what they are when the heap grows. *)
Lemma lookup_grow h l a o : h !! a = Some o → (h ++ l) !! a = Some o.
Proof. intros H. by apply lookup_app_l_Some. Qed.

Lemma lookup_fresh h o l : (h ++ o :: l) !! length h = Some o.
Proof. by rewrite list_lookup_middle. Qed.

(** A write to an address the heap does not have is lost; a write to the
    last allocated address replaces that object. *)
Lemma store_last h o o' : <[length h := o']> (h ++ [o]) = h ++ [o'].
Proof.
  rewrite insert_app_r_alt; [|lia]. by rewrite Nat.sub_diag.
Qed.
End heap_facts.

(** ** What the operations do to the heap *)

(** [define_new], run: the copy of the inherited members goes to the next
    free address, the new class right after it. *)
Lemma define_new_run (h : list Obj) cls name members is_abstract :
  define_new cls name members is_abstract h =
  match class_getattr cls_members h cls with
  | None => (Raise (AttributeError "_members"), h)
  | Some r =>
      match dict_at h r with
      | None => (Raise (TypeError "not a dict"), h)
      | Some inherited =>
          if bool_decide (py_set (dict_keys inherited)
                          ∩ py_set (dict_keys members) ≠ ∅)
          then (Raise (ValueError
                         "'members' contains keys that overlap with parent"),
                h ++ [ODict inherited])
          else
            match class_at h cls with
            | None => (Raise (TypeError "not a class"),
                       h ++ [ODict (dict_update inherited members)])
            | Some base =>
                (Return (S (length h)),
                 h ++ [ODict (dict_update inherited members);
                       OClass (derived_class name cls base (S (length h))
                                 (length h) is_abstract)])
            end
      end
  end.
Proof.
  unfold define_new. unfold_M.
  destruct (class_getattr cls_members h cls) as [r|]; [|done].
  destruct (dict_at h r) as [inherited|]; [|done].
  unfold dict_at at 1. rewrite lookup_fresh. simpl.
  case_bool_decide; [done|].
  unfold dict_at. rewrite lookup_fresh, store_last.
  assert (class_at (h ++ [ODict (dict_update inherited members)]) cls
          = class_at h cls) as ->.
  { unfold class_at. destruct (decide (cls < length h)) as [Hlt|Hge].
    - by rewrite lookup_app_l.
    - rewrite (lookup_ge_None_2 h) by lia.
      destruct (decide (cls = length h)) as [->|].
      + by rewrite lookup_fresh.
      + rewrite lookup_ge_None_2; [done|]. rewrite length_app. simpl. lia. }
  destruct (class_at h cls) as [base|]; [|done].
  rewrite length_app. simpl. rewrite Nat.add_1_r.
  by rewrite <- app_assoc.
Qed.

Section instance_allocation.
Context (h : list Obj) (i : InstObj).

(** A new instance object is neither a class nor a dict: every class and
    dict read sees the heap as it was. *)
Lemma class_at_new_inst k : class_at (h ++ [OInst i]) k = class_at h k.
Proof.
  unfold class_at. destruct (decide (k < length h)) as [Hlt|Hge].
  - by rewrite lookup_app_l.
  - rewrite (lookup_ge_None_2 h) by lia.
    destruct (decide (k = length h)) as [->|].
    + by rewrite lookup_fresh.
    + rewrite lookup_ge_None_2; [done|]. rewrite length_app. simpl. lia.
Qed.

Lemma dict_at_new_inst k : dict_at (h ++ [OInst i]) k = dict_at h k.
Proof.
  unfold dict_at. destruct (decide (k < length h)) as [Hlt|Hge].
  - by rewrite lookup_app_l.
  - rewrite (lookup_ge_None_2 h) by lia.
    destruct (decide (k = length h)) as [->|].
    + by rewrite lookup_fresh.
    + rewrite lookup_ge_None_2; [done|]. rewrite length_app. simpl. lia.
Qed.

Lemma mro_lookup_new_inst {A} (field : ClassObj → option A) mro :
  mro_lookup field (h ++ [OInst i]) mro = mro_lookup field h mro.
Proof.
  induction mro as [|k mro IH]; simpl; [done|].
  rewrite class_at_new_inst, IH. done.
Qed.

Lemma class_getattr_new_inst {A} (field : ClassObj → option A) cls :
  class_getattr field (h ++ [OInst i]) cls = class_getattr field h cls.
Proof.
  unfold class_getattr. rewrite class_at_new_inst.
  destruct (class_at h cls); simpl; [apply mro_lookup_new_inst | done].
Qed.
End instance_allocation.

(** [cls(values)], run: the instance takes the next free address; a raise
    in [__init__] leaves it behind without [_values]. *)
Lemma construct_run (h : list Obj) cls values :
  construct cls values h =
  let uninit := h ++ [OInst (mkInst cls None)] in
  match is_abstract_of h cls with
  | None => (Raise (AttributeError "_is_abstract"), uninit)
  | Some true =>
      (Raise (TypeError "Cannot create instance of an abstract struct type"),
       uninit)
  | Some false =>
      match dict_at h values with
      | None => (Raise (AttributeError "keys"), uninit)
      | Some vs =>
          match class_getattr cls_members h cls with
          | None => (Raise (AttributeError "_members"), uninit)
          | Some r =>
              match dict_at h r with
              | None => (Raise (AttributeError "keys"), uninit)
              | Some ms =>
                  if bool_decide (py_set (dict_keys vs)
                                  ≠ py_set (dict_keys ms))
                  then (Raise (ValueError
                                 "Cannot map 'values' to this struct"),
                        uninit)
                  else (Return (length h),
                        h ++ [OInst (mkInst cls (Some values))])
              end
          end
      end
  end.
Proof.
  unfold construct, __init__, is_abstract_of. unfold_M. simpl.
  unfold inst_at. rewrite lookup_fresh. simpl.
  rewrite class_getattr_new_inst.
  destruct (class_getattr cls_is_abstract h cls) as [[|]|]; [done| |done].
  rewrite dict_at_new_inst.
  destruct (dict_at h values) as [vs|]; [|done]. simpl.
  rewrite lookup_fresh. simpl. rewrite class_getattr_new_inst.
  destruct (class_getattr cls_members h cls) as [r|]; [|done].
  rewrite dict_at_new_inst.
  destruct (dict_at h r) as [ms|]; [|done]. simpl.
  case_bool_decide; [done|].
  rewrite lookup_fresh. simpl. by rewrite store_last.
Qed.

(** [_set_parent_scope], run. *)
Lemma _set_parent_scope_run (h : list Obj) cls scope :
  _set_parent_scope cls scope h =
  match class_at h cls with
  | None => (Raise (TypeError "not a class"), h)
  | Some c =>
      (Return tt,
       <[cls := OClass (mkClass (cls_name c) (cls_base c) (cls_mro c)
                          (cls_members c) (cls_is_abstract c)
                          (Some (Some scope)))]> h)
  end.
Proof.
  unfold _set_parent_scope. unfold_M.
  by destruct (class_at h cls).
Qed.

(** [__getattr__] only reads. *)
Lemma __getattr___heap (h : list Obj) self name :
  (__getattr__ self name h).2 = h.
Proof.
  unfold __getattr__. unfold_M.
  case_bool_decide; [done|].
  destruct (inst_at h self) as [i|]; [|done]. simpl.
  destruct (inst_values i) as [r|]; [|done].
  destruct (dict_at h r) as [vs|]; [|done]. simpl.
  destruct (dict_contains name vs).
  - by destruct (dict_get name vs).
  - by destruct (class_at h (inst_class i)).
Qed.

(** ** The frame of the module's operations *)

Lemma same_layout_refl c : same_layout c c.
Proof. by repeat split. Qed.

Lemma same_layout_trans c1 c2 c3 :
  same_layout c1 c2 → same_layout c2 c3 → same_layout c1 c3.
Proof.
  intros (?&?&?&?&?) (?&?&?&?&?). repeat split; congruence.
Qed.

#[global] Instance frame_refl : Reflexive frame.
Proof.
  intros h. split; [done|done|]. intros a c Hc. exists c.
  split; [done | apply same_layout_refl].
Qed.

#[global] Instance frame_trans : Transitive frame.
Proof.
  intros h1 h2 h3 [D1 I1 C1] [D2 I2 C2]. split; [by auto|by auto|].
  intros a c Hc. destruct (C1 _ _ Hc) as (c'&Hc'&L1).
  destruct (C2 _ _ Hc') as (c''&Hc''&L2). exists c''.
  split; [done | by eapply same_layout_trans].
Qed.

(** Growing the heap is within the frame. *)
Lemma frame_grow (h l : list Obj) : frame h (h ++ l).
Proof.
  split.
  - intros a d. rewrite !dict_at_Some. apply lookup_grow.
  - intros a i. rewrite !inst_at_Some. apply lookup_grow.
  - intros a c. rewrite class_at_Some. intros Hc. exists c.
    split; [|apply same_layout_refl].
    rewrite class_at_Some. by apply lookup_grow.
Qed.

(** Replacing a class by one that differs in [_parent_scope] only is within
    the frame. *)
Lemma frame_replace_class (h : list Obj) cls c c' :
  class_at h cls = Some c → same_layout c c' →
  frame h (<[cls := OClass c']> h).
Proof.
  intros Hc Hl. apply class_at_Some in Hc.
  assert (Hlen : cls < length h) by by eapply lookup_lt_Some.
  split.
  - intros a d. rewrite !dict_at_Some. intros Hd.
    rewrite list_lookup_insert_ne; [done|]. intros ->. congruence.
  - intros a i. rewrite !inst_at_Some. intros Hi.
    rewrite list_lookup_insert_ne; [done|]. intros ->. congruence.
  - intros a x. rewrite class_at_Some. intros Hx.
    destruct (decide (cls = a)) as [->|Hne].
    + exists c'. rewrite class_at_Some, list_lookup_insert_eq by done.
      split; [done|]. congruence.
    + exists x. rewrite class_at_Some, list_lookup_insert_ne by done.
      split; [done | apply same_layout_refl].
Qed.

Section frame_reads.
Context (h h' : list Obj) (Hf : frame h h').

Lemma mro_lookup_frame {A} (field : ClassObj → option A) mro v :
  (∀ c c', same_layout c c' → field c' = field c) →
  mro_lookup field h mro = Some v → mro_lookup field h' mro = Some v.
Proof.
  intros Hfield. induction mro as [|k mro IH]; simpl; [done|].
  destruct (class_at h k) as [c|] eqn:Hc; [|done].
  destruct (frame_class _ _ Hf _ _ Hc) as (c'&->&Hl).
  rewrite (Hfield _ _ Hl). destruct (field c); [done | apply IH].
Qed.

Lemma class_getattr_frame {A} (field : ClassObj → option A) cls v :
  (∀ c c', same_layout c c' → field c' = field c) →
  class_getattr field h cls = Some v → class_getattr field h' cls = Some v.
Proof.
  intros Hfield. unfold class_getattr.
  destruct (class_at h cls) as [c|] eqn:Hc; [|done]. simpl.
  destruct (frame_class _ _ Hf _ _ Hc) as (c'&->&Hl). simpl.
  destruct Hl as (_&_&->&_). by apply mro_lookup_frame.
Qed.

Lemma members_of_frame cls d :
  members_of h cls = Some d → members_of h' cls = Some d.
Proof.
  unfold members_of.
  destruct (class_getattr cls_members h cls) as [r|] eqn:Hr; [|done].
  erewrite class_getattr_frame; [| |exact Hr].
  - simpl. apply (frame_dict _ _ Hf).
  - by intros c c' (_&_&_&?&_).
Qed.

Lemma is_abstract_of_frame cls b :
  is_abstract_of h cls = Some b → is_abstract_of h' cls = Some b.
Proof.
  unfold is_abstract_of. apply class_getattr_frame.
  by intros c c' (_&_&_&_&?).
Qed.

Lemma values_of_frame self d :
  values_of h self = Some d → values_of h' self = Some d.
Proof.
  unfold values_of.
  destruct (inst_at h self) as [i|] eqn:Hi; [|done].
  rewrite (frame_inst _ _ Hf _ _ Hi). simpl.
  destruct (inst_values i) as [r|]; [|done]. simpl.
  apply (frame_dict _ _ Hf).
Qed.
End frame_reads.

(** ** Every step is within the frame *)

Lemma define_new_grows (h : list Obj) cls name members is_abstract :
  ∃ l, (define_new cls name members is_abstract h).2 = h ++ l.
Proof.
  rewrite define_new_run.
  destruct (class_getattr cls_members h cls) as [r|];
    [|exists []; by rewrite app_nil_r].
  destruct (dict_at h r) as [inherited|]; [|exists []; by rewrite app_nil_r].
  case_bool_decide; [by eexists|].
  destruct (class_at h cls); by eexists.
Qed.

Lemma construct_grows (h : list Obj) cls values :
  ∃ i, (construct cls values h).2 = h ++ [OInst i].
Proof.
  rewrite construct_run. simpl.
  destruct (is_abstract_of h cls) as [[|]|]; [by eexists| |by eexists].
  destruct (dict_at h values); [|by eexists].
  destruct (class_getattr cls_members h cls) as [r|]; [|by eexists].
  destruct (dict_at h r); [|by eexists].
  case_bool_decide; by eexists.
Qed.

Lemma step_frame h h' : step h h' → frame h h'.
Proof.
  destruct 1 as [cls name members is_abstract h|cls values h|cls scope h
                 |self name h|d h].
  - destruct (define_new_grows h cls name members is_abstract) as [l ->].
    apply frame_grow.
  - destruct (construct_grows h cls values) as [i ->]. apply frame_grow.
  - rewrite _set_parent_scope_run.
    destruct (class_at h cls) as [c|] eqn:Hc; [|reflexivity]. simpl.
    eapply frame_replace_class; [exact Hc | by repeat split].
  - rewrite __getattr___heap. reflexivity.
  - apply frame_grow.
Qed.

Lemma steps_frame h h' : rtc step h h' → frame h h'.
Proof.
  induction 1 as [|h1 h2 h3 Hs _ IH]; [reflexivity|].
  etrans; [by apply step_frame | done].
Qed.

(** ** Every step keeps the shape of the class table *)

Lemma is_descriptor_from h h' a :
  classes_from h h' → is_Some (class_at h a) →
  is_descriptor h' a → is_descriptor h a.
Proof.
  intros Hfrom [c0 Hc0] (c'&Hc'&Hin).
  destruct (Hfrom _ _ Hc') as [(c&Hc&Hl)|[Hnone _]]; [|congruence].
  exists c. split; [done|]. destruct Hl as (_&_&<-&_). done.
Qed.

Lemma struct_inv_preserved h h' :
  frame h h' → classes_from h h' → struct_inv h → struct_inv h'.
Proof.
  intros Hf Hfrom [Hroot Hmro Hpre]. split.
  - destruct Hroot as (u&r&d&b&Hu&Hr&Hd&Hb).
    destruct (frame_class _ _ Hf _ _ Hu) as (u'&Hu'&Hl).
    destruct Hl as (_&_&_&Hm&Ha).
    exists u', r, d, b. repeat split; [done|congruence| |congruence].
    by apply (frame_dict _ _ Hf).
  - intros a c' Hc'.
    destruct (Hfrom _ _ Hc') as [(c&Hc&Hl)|[_ Hnew]].
    + destruct Hl as (_&Hb&Hm&_). rewrite Hb, Hm.
      specialize (Hmro _ _ Hc). destruct (cls_base c) as [b|]; [|done].
      destruct Hmro as (bc&Hbc&->).
      destruct (frame_class _ _ Hf _ _ Hbc) as (bc'&Hbc'&Hl').
      exists bc'. split; [done|]. destruct Hl' as (_&_&->&_). done.
    + destruct Hnew as (b&bc&r&d0&d&->&Hbc&->&_).
      destruct (frame_class _ _ Hf _ _ Hbc) as (bc'&Hbc'&Hl').
      exists bc'. split; [done|]. destruct Hl' as (_&_&->&_). done.
  - intros a c' b Hc' Hbase Hdesc.
    destruct (Hfrom _ _ Hc') as [(c&Hc&Hl)|[_ Hnew]].
    + destruct Hl as (_&Hb&_). rewrite Hb in Hbase.
      assert (is_Some (class_at h b)) as Hbh.
      { specialize (Hmro _ _ Hc). rewrite Hbase in Hmro.
        destruct Hmro as (bc&Hbc&_). by eexists. }
      destruct (Hpre _ _ _ Hc Hbase) as (db&dc&Hdb&Hdc&Hp).
      { by eapply is_descriptor_from. }
      exists db, dc. split_and!; [|  |done]; by eapply members_of_frame.
    + destruct Hnew as (b'&bc&r&d0&d&Hb'&Hbc&Hm&Hr&Hd&Hd0&Hp).
      assert (b' = b) as -> by congruence.
      exists d0, d. split_and!; [by eapply members_of_frame| |done].
      unfold members_of, class_getattr. rewrite Hc'. simpl.
      rewrite Hm. simpl. rewrite Hc', Hr. simpl. done.
Qed.

Lemma classes_from_grow_data (h l : list Obj) :
  Forall (λ o, ∀ c, o ≠ OClass c) l → classes_from h (h ++ l).
Proof.
  intros Hl a c'. rewrite class_at_Some, lookup_app_Some.
  intros [Hc|[_ Hc]].
  - left. exists c'. rewrite class_at_Some. split; [done|].
    apply same_layout_refl.
  - apply list_elem_of_lookup_2 in Hc.
    rewrite Forall_forall in Hl. by destruct (Hl _ Hc c').
Qed.

Lemma classes_from_refl (h : list Obj) : classes_from h h.
Proof.
  intros a c' Hc. left. exists c'. split; [done | apply same_layout_refl].
Qed.

Lemma classes_from_replace (h : list Obj) cls c c' :
  class_at h cls = Some c → same_layout c c' →
  classes_from h (<[cls := OClass c']> h).
Proof.
  intros Hc Hl a x. rewrite class_at_Some. intros Hx. left.
  destruct (decide (cls = a)) as [->|Hne].
  - exists c. split; [done|].
    apply class_at_Some, lookup_lt_Some in Hc.
    rewrite list_lookup_insert_eq in Hx by done. congruence.
  - rewrite list_lookup_insert_ne in Hx by done.
    exists x. rewrite class_at_Some. split; [done|]. apply same_layout_refl.
Qed.

(** Assignments of keys a dict does not have leave its entries where they
    are, whatever else they do behind them. *)
Lemma dict_setitem_behind k v (d t : list (string * PyVal)) :
  k ∉ dict_keys d → dict_setitem k v (d ++ t) = d ++ dict_setitem k v t.
Proof.
  unfold dict_keys. induction d as [|[k' v'] d IH]; simpl; intros Hk; [done|].
  destruct (decide (k = k')) as [->|Hne].
  - exfalso. apply Hk. left.
  - f_equal. apply IH. intros Hin. apply Hk. by right.
Qed.

Lemma dict_update_behind (other d : list (string * PyVal)) : ∀ t,
  (∀ k, k ∈ dict_keys other → k ∉ dict_keys d) →
  dict_update (d ++ t) other = d ++ dict_update t other.
Proof.
  unfold dict_update. induction other as [|[k v] other IH]; intros t Hdisj;
    simpl; [done|].
  rewrite dict_setitem_behind.
  2:{ apply Hdisj. unfold dict_keys. simpl. left. }
  apply IH. intros k' Hk'. apply Hdisj. unfold dict_keys. simpl. by right.
Qed.

Lemma dict_update_prefix (d other : list (string * PyVal)) :
  py_set (dict_keys d) ∩ py_set (dict_keys other) = ∅ →
  d `prefix_of` dict_update d other.
Proof.
  intros Hdisj. exists (dict_update [] other).
  rewrite <- dict_update_behind, app_nil_r; [done|].
  intros k Hk Hk'. unfold py_set in Hdisj.
  apply (not_elem_of_empty (C:=gset string) k). rewrite <- Hdisj.
  apply elem_of_intersection. by rewrite !elem_of_list_to_set.
Qed.

Lemma classes_from_define_new (h : list Obj) cls name members is_abstract :
  classes_from h (define_new cls name members is_abstract h).2.
Proof.
  rewrite define_new_run.
  destruct (class_getattr cls_members h cls) as [r|] eqn:Hr; simpl;
    [|apply classes_from_refl].
  destruct (dict_at h r) as [inherited|] eqn:Hd; simpl;
    [|apply classes_from_refl].
  case_bool_decide as Hcoll; simpl.
  { apply classes_from_grow_data. by repeat constructor. }
  destruct (class_at h cls) as [base|] eqn:Hbase; simpl.
  2:{ apply classes_from_grow_data. by repeat constructor. }
  intros a c'. rewrite class_at_Some, lookup_app_Some.
  intros [Hc|[Hge Hc]].
  - left. exists c'. rewrite class_at_Some. split; [done|].
    apply same_layout_refl.
  - right. destruct (a - length h) as [|[|n]] eqn:Hn; simpl in Hc;
      [done| |done].
    assert (a = S (length h)) as -> by lia. simplify_eq. split.
    + unfold class_at. rewrite lookup_ge_None_2; [done|lia].
    + exists cls, base, (length h), inherited,
        (dict_update inherited members).
      split_and!; try done.
      * unfold dict_at. by rewrite lookup_fresh.
      * unfold members_of. by rewrite Hr.
      * by apply dict_update_prefix.
Qed.

Lemma step_classes_from h h' : step h h' → classes_from h h'.
Proof.
  destruct 1 as [cls name members is_abstract h|cls values h|cls scope h
                 |self name h|d h].
  - apply classes_from_define_new.
  - destruct (construct_grows h cls values) as [i ->].
    apply classes_from_grow_data. by repeat constructor.
  - rewrite _set_parent_scope_run.
    destruct (class_at h cls) as [c|] eqn:Hc; [|apply classes_from_refl].
    simpl. eapply classes_from_replace; [exact Hc | by repeat split].
  - rewrite __getattr___heap. apply classes_from_refl.
  - apply classes_from_grow_data. by repeat constructor.
Qed.

Lemma struct_inv_init : struct_inv heap_init.
Proof.
  split.
  - by exists (mkClass "UserStruct" (Some object_) [UserStruct; object_]
                 (Some UserStruct_members) (Some true) (Some None)),
      UserStruct_members, [], true.
  - intros a c Hc. apply class_at_Some in Hc.
    destruct a as [|[|[|a]]]; simpl in Hc; simplify_eq; simpl; [done|].
    by eexists.
  - intros a c b Hc Hb (bc&Hbc&Hin). apply class_at_Some in Hc, Hbc.
    destruct a as [|[|[|a]]]; simpl in Hc; simplify_eq.
    simpl in Hb. simplify_eq. simpl in Hbc. simplify_eq.
    simpl in Hin. apply list_elem_of_singleton in Hin. discriminate.
Qed.

Lemma struct_inv_step h h' : step h h' → struct_inv h → struct_inv h'.
Proof.
  intros Hs. apply struct_inv_preserved;
    [by apply step_frame | by apply step_classes_from].
Qed.

(** Every heap of a run has the shape [struct_inv]. *)
Lemma reachable_inv h : reachable h → struct_inv h.
Proof.
  unfold reachable. intros Hr. revert h Hr. apply rtc_ind_r.
  - apply struct_inv_init.
  - intros h1 h2 _ Hs IH. by eapply struct_inv_step.
Qed.

(** ** Consequences of the shape *)

Section inv_facts.
Context (h : list Obj) (Hinv : struct_inv h).

(** Every class named in an MRO is a class of the heap. *)
Lemma mro_valid a c :
  class_at h a = Some c → Forall (λ k, is_Some (class_at h k)) (cls_mro c).
Proof.
  remember (length (cls_mro c)) as n eqn:Hn. revert a c Hn.
  induction n as [n IH] using lt_wf_ind. intros a c Hn Hc.
  pose proof (inv_mro _ Hinv _ _ Hc) as Hm.
  destruct (cls_base c) as [b|].
  - destruct Hm as (bc&Hbc&Hm). rewrite Hm. constructor; [by eexists|].
    eapply (IH (length (cls_mro bc))); [|done|exact Hbc].
    rewrite Hn, Hm. simpl. lia.
  - rewrite Hm. constructor; [by eexists | constructor].
Qed.

Lemma mro_head a c : class_at h a = Some c → ∃ rest, cls_mro c = a :: rest.
Proof.
  intros Hc. pose proof (inv_mro _ Hinv _ _ Hc) as Hm.
  destruct (cls_base c) as [b|].
  - destruct Hm as (bc&_&->). by eexists.
  - rewrite Hm. by eexists.
Qed.

(** A class attribute some class of the MRO defines is found. *)
Lemma mro_lookup_reaches {A} (field : ClassObj → option A) mro k kc :
  Forall (λ k, is_Some (class_at h k)) mro →
  k ∈ mro → class_at h k = Some kc → is_Some (field kc) →
  is_Some (mro_lookup field h mro).
Proof.
  intros Hv Hin Hk Hf. induction Hv as [|x mro [xc Hx] Hv IH]; simpl.
  - by apply elem_of_nil in Hin.
  - rewrite Hx. destruct (field xc) as [v|] eqn:Hfx; [by eexists|].
    apply IH. apply elem_of_cons in Hin as [->|Hin]; [|done].
    rewrite Hx in Hk. simplify_eq. rewrite Hfx in Hf. by destruct Hf.
Qed.

(** Membership in the MRO is derivation through bases. *)
Lemma mro_derives a c b :
  class_at h a = Some c → b ∈ cls_mro c ↔ derives_from h a b.
Proof.
  intros Hc. split.
  - remember (length (cls_mro c)) as n eqn:Hn. revert a c Hn Hc.
    induction n as [n IH] using lt_wf_ind. intros a c Hn Hc Hin.
    pose proof (inv_mro _ Hinv _ _ Hc) as Hm.
    destruct (cls_base c) as [b'|] eqn:Hb.
    + destruct Hm as (bc&Hbc&Hm). rewrite Hm in Hin.
      apply elem_of_cons in Hin as [->|Hin]; [apply rtc_refl|].
      eapply rtc_l; [by exists c|].
      eapply (IH (length (cls_mro bc))); [|done|exact Hbc|done].
      rewrite Hn, Hm. simpl. lia.
    + rewrite Hm in Hin. apply list_elem_of_singleton in Hin as ->.
      apply rtc_refl.
  - intros Hd. revert c Hc.
    induction Hd as [a|a a1 b (c'&Hc'&Hb) _ IH]; intros c Hc.
    + destruct (mro_head _ _ Hc) as [rest ->]. left.
    + assert (c' = c) as -> by congruence.
      pose proof (inv_mro _ Hinv _ _ Hc) as Hm.
      rewrite Hb in Hm. destruct Hm as (bc&Hbc&->).
      right. by apply IH.
Qed.

(** A descriptor resolves [_members] and [_is_abstract]. *)
Lemma descriptor_members a :
  is_descriptor h a → is_Some (members_of h a).
Proof.
  intros (c&Hc&Hin). pose proof (inv_mro _ Hinv _ _ Hc) as Hm.
  destruct (decide (a = UserStruct)) as [->|Hne].
  - destruct (inv_root _ Hinv) as (u&r&d&b&Hu&Hr&Hd&_).
    destruct (mro_head _ _ Hu) as [rest Hrest].
    unfold members_of, class_getattr. rewrite Hu. simpl.
    rewrite Hrest. simpl. rewrite Hu, Hr. simpl. by eexists.
  - destruct (cls_base c) as [b|] eqn:Hb.
    + destruct Hm as (bc&Hbc&Hm). rewrite Hm in Hin.
      apply elem_of_cons in Hin as [?|Hin]; [congruence|].
      destruct (inv_prefix _ Hinv _ _ _ Hc Hb) as (db&dc&_&Hdc&_);
        [by exists bc | by eexists].
    + rewrite Hm in Hin. apply list_elem_of_singleton in Hin. congruence.
Qed.

Lemma descriptor_is_abstract a :
  is_descriptor h a → is_Some (is_abstract_of h a).
Proof.
  intros (c&Hc&Hin).
  destruct (inv_root _ Hinv) as (u&r&d&b&Hu&_&_&Hb).
  unfold is_abstract_of, class_getattr. rewrite Hc. simpl.
  eapply mro_lookup_reaches; [by eapply mro_valid|exact Hin|exact Hu|].
  by eexists.
Qed.

(** What a descriptor inherits from an ancestor, near or far, is where its
    own member mapping starts. *)
Lemma ancestor_members a b :
  derives_from h a b → is_descriptor h b →
  is_descriptor h a ∧
  ∃ db da, members_of h b = Some db ∧ members_of h a = Some da
           ∧ db `prefix_of` da.
Proof.
  intros Hd Hb. induction Hd as [a|a a1 b (c&Hc&Hbase) _ IH].
  - split; [done|]. destruct (descriptor_members _ Hb) as [d Hd].
    by exists d, d.
  - destruct (IH Hb) as [(bc'&Hbc'&Hin) (db&d1&Hdb&Hd1&Hp)].
    pose proof (inv_mro _ Hinv _ _ Hc) as Hm. rewrite Hbase in Hm.
    destruct Hm as (bc&Hbc&Hm). assert (bc' = bc) as -> by congruence.
    split.
    + exists c. split; [done|]. rewrite Hm. by right.
    + destruct (inv_prefix _ Hinv _ _ _ Hc Hbase) as (d1'&da&Hd1'&Hda&Hp');
        [by exists bc|].
      assert (d1' = d1) as -> by congruence.
      exists db, da. split_and!; [done|done|by etrans].
Qed.
End inv_facts.

(** ** Derivation: [define_new] *)

(** The outcome of a derivation from a descriptor whose members resolve. *)
Lemma define_new_outcome (h : list Obj) B name members is_abstract dB :
  members_of h B = Some dB →
  ∃ r base,
    class_getattr cls_members h B = Some r ∧ dict_at h r = Some dB
    ∧ class_at h B = Some base
    ∧ define_new B name members is_abstract h =
      if bool_decide (py_set (dict_keys dB) ∩ py_set (dict_keys members) ≠ ∅)
      then (Raise (ValueError
                     "'members' contains keys that overlap with parent"),
            h ++ [ODict dB])
      else (Return (S (length h)),
            h ++ [ODict (dict_update dB members);
                  OClass (derived_class name B base (S (length h))
                            (length h) is_abstract)]).
Proof.
  unfold members_of. intros Hm.
  destruct (class_getattr cls_members h B) as [r|] eqn:Hr; [|done].
  simpl in Hm. assert (is_Some (class_at h B)) as [base Hbase].
  { unfold class_getattr in Hr. destruct (class_at h B); [by eexists|done]. }
  exists r, base. split_and!; try done.
  rewrite define_new_run, Hr, Hm, Hbase. done.
Qed.

(** Reads on the class a successful derivation returns. *)
Lemma derived_class_reads (h : list Obj) name B base is_abstract d :
  let D := S (length h) in
  let h' := h ++ [ODict d;
                  OClass (derived_class name B base D (length h)
                            is_abstract)] in
  class_at h' D
  = Some (derived_class name B base D (length h) is_abstract)
  ∧ members_of h' D = Some d
  ∧ is_abstract_of h' D = Some is_abstract.
Proof.
  intros D h'.
  assert (class_at h' D
          = Some (derived_class name B base D (length h) is_abstract)) as HD.
  { unfold class_at, h', D.
    rewrite (lookup_app_r h) by lia.
    by replace (S (length h) - length h) with 1 by lia. }
  split_and!; [done| |].
  - unfold members_of, class_getattr. rewrite HD. simpl. rewrite HD. simpl.
    unfold dict_at, h'. by rewrite lookup_fresh.
  - unfold is_abstract_of, class_getattr. rewrite HD. simpl. by rewrite HD.
Qed.

(** C2. Inheritance completeness: deriving from a base descriptor [B] with a
    member map [M] (a dict: its keys are distinct) none of whose names is
    among [B]'s members succeeds, and the new descriptor's member mapping is
    [B]'s entries followed by [M]'s entries: its member names are exactly the
    inherited names and the names of [M], the inherited ones first in [B]'s
    order, then those of [M] in [M]'s order; its abstract flag is the one
    supplied. *)
Theorem C2_derive_members_inherited_then_new
  (h : list Obj) B name M is_abstract dB :
  members_of h B = Some dB →
  NoDup (dict_keys M) →
  (∀ k, k ∈ dict_keys M → k ∉ dict_keys dB) →
  ∃ D h',
    define_new B name M is_abstract h = (Return D, h')
    ∧ members_of h' D = Some (dB ++ M)
    ∧ member_names h' D = Some (dict_keys dB ++ dict_keys M)
    ∧ (∀ k, k ∈ dict_keys (dB ++ M) ↔ k ∈ dict_keys dB ∨ k ∈ dict_keys M)
    ∧ is_abstract_of h' D = Some is_abstract.
Proof.
  intros HB Hnd Hdisj.
  destruct (define_new_outcome h B name M is_abstract dB HB)
    as (r&base&_&_&_&Hrun).
  rewrite bool_decide_eq_false_2 in Hrun.
  2:{ rewrite py_set_intersect. intros (k&Hk1&Hk2). by eapply Hdisj. }
  rewrite dict_update_disjoint in Hrun by done.
  eexists _, _. split; [exact Hrun|].
  destruct (derived_class_reads h name B base is_abstract (dB ++ M))
    as (_&Hm&Ha).
  split_and!; [done| |  |done].
  - unfold member_names. rewrite Hm. simpl. by rewrite dict_keys_app.
  - intros k. rewrite dict_keys_app. apply elem_of_app.
Qed.

Lemma C2_witness :
  ∃ D h',
    define_new Point "Point3" [("z", PyInt 0)] false heap_point
    = (Return D, h')
    ∧ members_of h' D
      = Some ([("x", PyInt 0); ("y", PyInt 0)] ++ [("z", PyInt 0)])
    ∧ member_names h' D = Some (["x"; "y"] ++ ["z"])
    ∧ (∀ k, k ∈ dict_keys ([("x", PyInt 0); ("y", PyInt 0)]
                            ++ [("z", PyInt 0)])
            ↔ k ∈ ["x"; "y"] ∨ k ∈ ["z"])
    ∧ is_abstract_of h' D = Some false.
Proof.
  apply (C2_derive_members_inherited_then_new heap_point Point "Point3"
           [("z", PyInt 0)] false [("x", PyInt 0); ("y", PyInt 0)]).
  - reflexivity.
  - apply NoDup_singleton.
  - intros k Hk Hin. apply list_elem_of_singleton in Hk. subst k.
    apply elem_of_cons in Hin as [Hin|Hin]; [discriminate|].
    apply list_elem_of_singleton in Hin. discriminate.
Defined.

Lemma inherited_name_flat (h : list Obj) B dB k :
  struct_inv h → is_descriptor h B → members_of h B = Some dB →
  inherited_name h B k ↔ k ∈ dict_keys dB.
Proof.
  intros Hinv HB HdB. split.
  - intros (A&dA&Hder&HA&HdA&Hk).
    destruct (ancestor_members h Hinv _ _ Hder HA)
      as (_&db&da&Hdb&Hda&[t Hp]).
    assert (db = dA) as -> by congruence.
    assert (da = dB) as -> by congruence.
    rewrite Hp, dict_keys_app. apply elem_of_app. by left.
  - intros Hk. exists B, dB. split_and!; done.
Qed.

(** C3. Collision detection: deriving from a descriptor [B] with member map
    [M] raises the [ValueError] of overlapping keys exactly when some key of
    [M] is a member name of [B] or of any descriptor [B] derives from, at
    whatever distance; otherwise the derivation returns a new descriptor. *)
Theorem C3_collision_iff_inherited_name
  (h : list Obj) B name M is_abstract :
  struct_inv h → is_descriptor h B →
  ((define_new B name M is_abstract h).1
   = Raise (ValueError "'members' contains keys that overlap with parent")
   ↔ ∃ k, k ∈ dict_keys M ∧ inherited_name h B k)
  ∧ ((∀ k, k ∈ dict_keys M → ¬ inherited_name h B k) →
     ∃ D, (define_new B name M is_abstract h).1 = Return D).
Proof.
  intros Hinv HB. destruct (descriptor_members h Hinv B HB) as [dB HdB].
  destruct (define_new_outcome h B name M is_abstract dB HdB)
    as (r&base&_&_&_&->).
  case_bool_decide as Hcoll; simpl.
  - apply py_set_intersect in Hcoll as (k&Hk1&Hk2). split.
    + split; [intros _|done]. exists k. split; [done|].
      by apply (inherited_name_flat h B dB k Hinv HB HdB).
    + intros Hno. exfalso. apply (Hno k Hk2).
      by apply (inherited_name_flat h B dB k Hinv HB HdB).
  - split.
    + split; [done|]. intros (k&Hk&Hin). exfalso.
      apply (inherited_name_flat h B dB k Hinv HB HdB) in Hin.
      assert (py_set (dict_keys dB) ∩ py_set (dict_keys M) ≠ ∅) as Hne.
      { apply py_set_intersect. by exists k. }
      done.
    + intros _. by eexists.
Qed.

Lemma reachable_heap_point3 : reachable heap_point3.
Proof.
  unfold reachable. eapply rtc_l; [apply step_define_new|].
  eapply rtc_l; [apply step_define_new|]. apply rtc_refl.
Qed.

Lemma C3_witness :
  ((define_new Point3 "Bad" [("x", PyInt 0)] false heap_point3).1
   = Raise (ValueError "'members' contains keys that overlap with parent")
   ↔ ∃ k, k ∈ dict_keys [("x", PyInt 0)] ∧ inherited_name heap_point3 Point3 k)
  ∧ ((∀ k, k ∈ dict_keys [("x", PyInt 0)]
           → ¬ inherited_name heap_point3 Point3 k) →
     ∃ D, (define_new Point3 "Bad" [("x", PyInt 0)] false heap_point3).1
          = Return D).
Proof.
  apply (C3_collision_iff_inherited_name heap_point3 Point3 "Bad"
           [("x", PyInt 0)] false).
  - apply reachable_inv, reachable_heap_point3.
  - eexists. split; [reflexivity|]. simpl. set_solver.
Defined.

(** ** Construction: [cls(values)] *)

(** The outcome of a construction on a concrete descriptor. *)
Lemma construct_outcome (h : list Obj) D V dD dV :
  is_abstract_of h D = Some false →
  members_of h D = Some dD →
  dict_at h V = Some dV →
  construct D V h =
  if bool_decide (py_set (dict_keys dV) ≠ py_set (dict_keys dD))
  then (Raise (ValueError "Cannot map 'values' to this struct"),
        h ++ [OInst (mkInst D None)])
  else (Return (length h), h ++ [OInst (mkInst D (Some V))]).
Proof.
  unfold members_of. intros Ha Hm HV.
  destruct (class_getattr cls_members h D) as [r|] eqn:Hr; [|done].
  simpl in Hm. rewrite construct_run, Ha, HV, Hr, Hm. done.
Qed.

(** What a constructed value holds, and for which descriptor. *)
Lemma constructed_reads (h : list Obj) D V dV :
  dict_at h V = Some dV →
  let h' := h ++ [OInst (mkInst D (Some V))] in
  inst_at h' (length h) = Some (mkInst D (Some V))
  ∧ values_of h' (length h) = Some dV.
Proof.
  intros HV h'.
  assert (inst_at h' (length h) = Some (mkInst D (Some V))) as Hi.
  { unfold inst_at, h'. by rewrite lookup_fresh. }
  split; [done|]. unfold values_of. rewrite Hi. simpl.
  apply (frame_dict _ _ (frame_grow h _)), HV.
Qed.

(** C4, as stated, fails in its last part.  The value keeps the caller's
    dict itself ([self._values = values]); when the caller then assigns
    [V["w"] = 9], the value constructed for [Point] holds the keys [y], [x]
    and [w] against the members [x] and [y]. *)
Lemma C4_counterexample :
  is_abstract_of heap_xy Point = Some false
  ∧ construct Point xy heap_xy
    = (Return 6, heap_xy ++ [OInst (mkInst Point (Some xy))])
  ∧ (caller_setitem xy "w" (PyInt 9) (construct Point xy heap_xy).2).1
    = Return tt
  ∧ values_of
      (caller_setitem xy "w" (PyInt 9) (construct Point xy heap_xy).2).2 6
    = Some [("y", PyInt 4); ("x", PyInt 3); ("w", PyInt 9)]
  ∧ members_of
      (caller_setitem xy "w" (PyInt 9) (construct Point xy heap_xy).2).2
      Point
    = Some [("x", PyInt 0); ("y", PyInt 0)]
  ∧ py_set (dict_keys [("y", PyInt 4); ("x", PyInt 3); ("w", PyInt 9)])
    ≠ py_set (dict_keys [("x", PyInt 0); ("y", PyInt 0)]).
Proof.
  split_and!; try reflexivity.
  intros Heq. pose proof (proj1 (py_set_eq _ _) Heq "w") as Hw.
  assert ("w" ∈ dict_keys [("x", PyInt 0); ("y", PyInt 0)]) as Hin.
  { apply Hw. simpl. set_solver. }
  simpl in Hin.
  repeat (apply elem_of_cons in Hin as [Hin|Hin]; [discriminate|]).
  by apply elem_of_nil in Hin.
Qed.

(** C4, amended. Exact membership: on a non-abstract descriptor [D],
    construction from the value map [V] returns a value exactly when the
    keys of [V] and the member names of [D] are the same set; any
    difference, a missing or an extra key alike, raises the one
    [ValueError]; and whatever the module is asked to do afterwards, the key
    set of the values the constructed value holds is the key set of [D]'s
    members. *)
Theorem C4_construct_iff_exact_keys (h : list Obj) D V dD dV :
  is_abstract_of h D = Some false →
  members_of h D = Some dD →
  dict_at h V = Some dV →
  ((∃ self, (construct D V h).1 = Return self)
   ↔ ∀ k, k ∈ dict_keys dV ↔ k ∈ dict_keys dD)
  ∧ (¬ (∀ k, k ∈ dict_keys dV ↔ k ∈ dict_keys dD) →
     (construct D V h).1
     = Raise (ValueError "Cannot map 'values' to this struct"))
  ∧ (∀ self h1 h2,
       construct D V h = (Return self, h1) → rtc step h1 h2 →
       ∃ i vs ms,
         inst_at h2 self = Some i ∧ inst_class i = D
         ∧ values_of h2 self = Some vs ∧ members_of h2 D = Some ms
         ∧ py_set (dict_keys vs) = py_set (dict_keys ms)).
Proof.
  intros Ha Hm HV. rewrite (construct_outcome h D V dD dV Ha Hm HV).
  case_bool_decide as Hkeys; simpl.
  - rewrite py_set_eq in Hkeys. split_and!.
    + split; [by intros [? ?] | done].
    + done.
    + intros self h1 h2 Hrun. discriminate.
  - rewrite py_set_eq in Hkeys. split_and!.
    + split; [done | by eexists].
    + done.
    + intros self h1 h2 Hrun Hsteps. simplify_eq.
      destruct (constructed_reads h D V dV HV) as [Hi Hvs].
      pose proof (steps_frame _ _ Hsteps) as Hf.
      exists (mkInst D (Some V)), dV, dD. split_and!.
      * by apply (frame_inst _ _ Hf).
      * done.
      * by apply (values_of_frame _ _ Hf).
      * apply (members_of_frame _ _ Hf).
        by apply (members_of_frame _ _ (frame_grow h _)).
      * by apply py_set_eq.
Qed.

Lemma C4_witness :
  ((∃ self, (construct Point xy heap_xy).1 = Return self)
   ↔ ∀ k, k ∈ dict_keys [("y", PyInt 4); ("x", PyInt 3)]
          ↔ k ∈ dict_keys [("x", PyInt 0); ("y", PyInt 0)])
  ∧ (¬ (∀ k, k ∈ dict_keys [("y", PyInt 4); ("x", PyInt 3)]
             ↔ k ∈ dict_keys [("x", PyInt 0); ("y", PyInt 0)]) →
     (construct Point xy heap_xy).1
     = Raise (ValueError "Cannot map 'values' to this struct"))
  ∧ (∀ self h1 h2,
       construct Point xy heap_xy = (Return self, h1) → rtc step h1 h2 →
       ∃ i vs ms,
         inst_at h2 self = Some i ∧ inst_class i = Point
         ∧ values_of h2 self = Some vs ∧ members_of h2 Point = Some ms
         ∧ py_set (dict_keys vs) = py_set (dict_keys ms)).
Proof.
  apply (C4_construct_iff_exact_keys heap_xy Point xy
           [("x", PyInt 0); ("y", PyInt 0)]
           [("y", PyInt 4); ("x", PyInt 3)]); reflexivity.
Defined.

(** C5. Abstract guard: construction on a descriptor whose [_is_abstract]
    is true raises the [TypeError] of abstract instantiation, whatever is
    passed as values. *)
Theorem C5_abstract_never_constructs (h : list Obj) D V :
  is_abstract_of h D = Some true →
  (construct D V h).1
  = Raise (TypeError "Cannot create instance of an abstract struct type").
Proof.
  intros Ha. by rewrite construct_run, Ha.
Qed.

Lemma C5_witness :
  (construct UserStruct xy heap_xy).1
  = Raise (TypeError "Cannot create instance of an abstract struct type").
Proof.
  apply (C5_abstract_never_constructs heap_xy UserStruct xy). reflexivity.
Defined.

(** ** Member reads: [__getattr__] *)

(** C9. A read of the name ["__setstate__"] raises [AttributeError] on any
    object in any heap, before the instance or its value map is looked at;
    so no read of that name returns a member value. *)
Theorem C9_setstate_always_attribute_error (h : list Obj) self :
  __getattr__ self "__setstate__" h
  = (Raise (AttributeError "__setstate__"), h)
  ∧ ∀ v, (__getattr__ self "__setstate__" h).1 ≠ Return v.
Proof.
  assert (__getattr__ self "__setstate__" h
          = (Raise (AttributeError "__setstate__"), h)) as ->; [|done].
  unfold __getattr__. by rewrite bool_decide_eq_true_2.
Qed.






(** ** The parent scope *)

(** After [_set_parent_scope] the class reads back the scope it was given. *)
Lemma get_parent_scope_set (h : list Obj) cls scope h1 :
  struct_inv h →
  _set_parent_scope cls scope h = (Return tt, h1) →
  get_parent_scope h1 cls = Some scope.
Proof.
  intros Hinv. rewrite _set_parent_scope_run.
  destruct (class_at h cls) as [c|] eqn:Hc; [|done]. intros [= <-].
  destruct (mro_head h Hinv _ _ Hc) as [rest Hrest].
  pose proof Hc as Hlt. apply class_at_Some, lookup_lt_Some in Hlt.
  unfold get_parent_scope, class_getattr, class_at.
  rewrite list_lookup_insert_eq by done. simpl. rewrite Hrest. simpl.
  unfold class_at. rewrite list_lookup_insert_eq by done. done.
Qed.

(** C1 (what the code does). A descriptor derived from a base [B] whose
    parent scope has been set does not start without a parent scope:
    [classdict] has no ['_parent_scope'] entry, so [get_parent_scope] on the
    new descriptor falls through to [B] and returns [B]'s scope. *)
Theorem C1_derived_descriptor_reads_base_parent_scope
  (h : list Obj) B scope h1 name M is_abstract D h2 :
  struct_inv h →
  _set_parent_scope B scope h = (Return tt, h1) →
  define_new B name M is_abstract h1 = (Return D, h2) →
  get_parent_scope h2 D = Some scope.
Proof.
  intros Hinv Hset Hnew. rewrite _set_parent_scope_run in Hset.
  destruct (class_at h B) as [c|] eqn:Hc; [|done].
  injection Hset as <-.
  destruct (mro_head h Hinv _ _ Hc) as [rest Hrest].
  pose proof Hc as Hlt. apply class_at_Some, lookup_lt_Some in Hlt.
  set (c' := mkClass (cls_name c) (cls_base c) (cls_mro c) (cls_members c)
               (cls_is_abstract c) (Some (Some scope))) in *.
  set (h1 := <[B := OClass c']> h) in *.
  assert (class_at h1 B = Some c') as Hc'.
  { unfold class_at, h1. by rewrite list_lookup_insert_eq. }
  rewrite define_new_run, Hc' in Hnew.
  destruct (class_getattr cls_members h1 B) as [r|]; [|done].
  destruct (dict_at h1 r) as [inherited|]; [|done].
  case_bool_decide; [done|]. injection Hnew as <- <-.
  destruct (derived_class_reads h1 name B c' is_abstract
              (dict_update inherited M)) as (HD&_&_).
  unfold get_parent_scope, class_getattr. rewrite HD. simpl. rewrite HD.
  simpl. rewrite Hrest. simpl.
  destruct (frame_class _ _ (frame_grow h1
              [ODict (dict_update inherited M);
               OClass (derived_class name B c' (S (length h1)) (length h1)
                         is_abstract)]) _ _ Hc') as (c''&Hc''&_).
  apply class_at_Some in Hc'.
  unfold class_at at 1.
  rewrite (lookup_grow _ _ _ _ Hc'). done.
Qed.

Lemma reachable_heap_point : reachable heap_point.
Proof.
  unfold reachable. eapply rtc_l; [apply step_define_new|]. apply rtc_refl.
Qed.

Lemma C1_witness :
  get_parent_scope
    (define_new Point "Point3" [("z", PyInt 0)] false heap_scoped).2 6
  = Some scope_b.
Proof.
  apply (C1_derived_descriptor_reads_base_parent_scope heap_point Point
           scope_b heap_scoped "Point3" [("z", PyInt 0)] false 6
           (define_new Point "Point3" [("z", PyInt 0)] false heap_scoped).2).
  - apply reachable_inv, reachable_heap_point.
  - reflexivity.
  - reflexivity.
Defined.

(** On a class whose MRO is in the heap, attribute resolution does not see
    what is allocated later. *)
Lemma mro_lookup_grow {A} (field : ClassObj → option A) (h l : list Obj) mro :
  Forall (λ k, is_Some (class_at h k)) mro →
  mro_lookup field (h ++ l) mro = mro_lookup field h mro.
Proof.
  induction 1 as [|k mro [c Hc] _ IH]; simpl; [done|].
  rewrite Hc. apply class_at_Some in Hc.
  unfold class_at at 1. rewrite (lookup_grow _ l _ _ Hc), IH. done.
Qed.

Lemma class_getattr_grow {A} (field : ClassObj → option A) (h l : list Obj)
  cls :
  struct_inv h → is_Some (class_at h cls) →
  class_getattr field (h ++ l) cls = class_getattr field h cls.
Proof.
  intros Hinv [c Hc]. unfold class_getattr. rewrite Hc.
  pose proof Hc as Hc'. apply class_at_Some in Hc'.
  unfold class_at at 1. rewrite (lookup_grow _ l _ _ Hc'). simpl.
  apply mro_lookup_grow. by eapply mro_valid.
Qed.

(** C8. Derivation leaves the base alone: after [define_new] on a
    descriptor [B], returned or raised, every object the heap had is the
    object it was, and [B] resolves the same member mapping, the same
    abstract flag and the same parent scope as before. *)
Theorem C8_define_new_keeps_base
  (h : list Obj) B name M is_abstract r h' :
  struct_inv h → is_descriptor h B →
  define_new B name M is_abstract h = (r, h') →
  (∀ a o, h !! a = Some o → h' !! a = Some o)
  ∧ class_at h' B = class_at h B
  ∧ members_of h' B = members_of h B
  ∧ is_abstract_of h' B = is_abstract_of h B
  ∧ get_parent_scope h' B = get_parent_scope h B.
Proof.
  intros Hinv HB Hrun.
  destruct (define_new_grows h B name M is_abstract) as [l Hl].
  rewrite Hrun in Hl. simpl in Hl. subst h'.
  assert (is_Some (class_at h B)) as HcB.
  { destruct HB as (c&Hc&_). by eexists. }
  split_and!.
  - intros a o. apply lookup_grow.
  - destruct HcB as [c Hc]. rewrite Hc. apply class_at_Some.
    by apply lookup_grow, class_at_Some.
  - destruct (descriptor_members h Hinv B HB) as [dB HdB].
    rewrite HdB. by apply (members_of_frame _ _ (frame_grow h l)).
  - unfold is_abstract_of. by apply class_getattr_grow.
  - unfold get_parent_scope. by rewrite class_getattr_grow.
Qed.

Lemma C8_witness :
  (∀ a o, heap_scoped !! a = Some o →
          (define_new Point "Bad" [("x", PyInt 0)] false heap_scoped).2 !! a
          = Some o)
  ∧ class_at (define_new Point "Bad" [("x", PyInt 0)] false heap_scoped).2
      Point = class_at heap_scoped Point
  ∧ members_of (define_new Point "Bad" [("x", PyInt 0)] false heap_scoped).2
      Point = members_of heap_scoped Point
  ∧ is_abstract_of
      (define_new Point "Bad" [("x", PyInt 0)] false heap_scoped).2 Point
    = is_abstract_of heap_scoped Point
  ∧ get_parent_scope
      (define_new Point "Bad" [("x", PyInt 0)] false heap_scoped).2 Point
    = get_parent_scope heap_scoped Point.
Proof.
  apply (C8_define_new_keeps_base heap_scoped Point "Bad" [("x", PyInt 0)]
           false
           (define_new Point "Bad" [("x", PyInt 0)] false heap_scoped).1).
  - apply reachable_inv. unfold reachable.
    eapply rtc_l; [apply step_define_new|].
    eapply rtc_l; [apply (step_set_parent_scope Point scope_b)|].
    apply rtc_refl.
  - eexists. split; [reflexivity|]. simpl. set_solver.
  - by destruct (define_new Point "Bad" [("x", PyInt 0)] false heap_scoped).
Defined.

(** ** The scope path *)

(** The cases of [get_scope_path]: a descriptor that resolves no parent
    scope, or whose parent scope is the root scope, has the empty path
    under every separator; a descriptor whose parent scope is named ["b"]
    and lies in a scope named ["a"] that is itself at top level has the path
    ["a::b"] under the default separator and ["a#b"] under ["#"]; and in
    general the path is the parent scope's own path joined by the separator
    with the parent scope's name, or that name alone under an empty path. *)
Lemma get_scope_path_cases (h : list Obj) cls :
  (∀ sep, get_parent_scope h cls = None → get_scope_path h cls sep = "")
  ∧ (∀ sep root, get_parent_scope h cls = Some root → is_Root root = true →
       get_scope_path h cls sep = "")
  ∧ (∀ top,
       get_parent_scope h cls
       = Some (mkComponent false "b" (Some (mkComponent false "a" top))) →
       match top with None => True | Some r => is_Root r = true end →
       get_scope_path h cls None = "a::b"
       ∧ get_scope_path h cls (Some "#") = "a#b")
  ∧ (∀ sep p, get_parent_scope h cls = Some p → is_Root p = false →
       let s := default "::" sep in
       get_scope_path h cls sep =
       match Component_get_scope_path p s with
       | "" => _scope_name p
       | parent_path => parent_path +:+ s +:+ _scope_name p
       end).
Proof.
  unfold get_scope_path. split_and!.
  - by intros sep ->.
  - by intros sep root -> ->.
  - intros top -> Htop. simpl.
    destruct top as [[r n p]|]; simpl in *; [rewrite Htop|]; done.
  - intros sep p -> Hp. simpl. rewrite Hp. unfold default_scope_separator.
    by destruct (Component_get_scope_path p (default "::" sep)).
Qed.

Example scenario_scope_paths :
  get_scope_path heap_init UserStruct None = ""
  ∧ get_scope_path heap_scoped Point None = "a::b"
  ∧ get_scope_path heap_scoped Point (Some "#") = "a#b".
Proof.
  split.
  - apply (proj1 (get_scope_path_cases heap_init UserStruct)). reflexivity.
  - apply (proj1 (proj2 (proj2 (get_scope_path_cases heap_scoped Point)))
             (Some (mkComponent true "root" None))); reflexivity.
Qed.

(** ** [is_user_struct] *)

(** C10. [is_user_struct] answers true exactly on a reference to a class
    that is [UserStruct] or derives from it through any number of bases; on
    a reference to an instance, to any other object, and on every value
    that is not a reference, it answers false. *)
Theorem C10_is_user_struct_iff_derived_class (h : list Obj) t :
  struct_inv h →
  (is_user_struct h t = true
   ↔ ∃ a, t = PyRef a ∧ is_Some (class_at h a)
          ∧ derives_from h a UserStruct)
  ∧ (∀ a, t = PyRef a → class_at h a = None → is_user_struct h t = false)
  ∧ (∀ a i, t = PyRef a → inst_at h a = Some i →
       is_user_struct h t = false)
  ∧ ((∀ a, t ≠ PyRef a) → is_user_struct h t = false).
Proof.
  intros Hinv. unfold is_user_struct, isclass, issubclass. split_and!.
  - destruct t as [| | | |a]; simpl;
      try (split; [done | by intros (a'&?&_)]).
    destruct (class_at h a) as [c|] eqn:Hc; simpl.
    + rewrite bool_decide_eq_true, (mro_derives h Hinv _ _ _ Hc). split.
      * intros Hd. exists a. split_and!; [done|by eexists|done].
      * by intros (a'&[= <-]&_&Hd).
    + split; [done|].
      intros (a'&[= <-]&[c Hc']&_). congruence.
  - by intros a -> ->.
  - intros a i -> Hi. apply inst_at_Some in Hi.
    unfold class_at. by rewrite Hi.
  - intros Hnr. destruct t as [| | | |a]; try done. by destruct (Hnr a).
Qed.

Lemma C10_witness :
  (is_user_struct heap_point3 (PyRef Point3) = true
   ↔ ∃ a, PyRef Point3 = PyRef a ∧ is_Some (class_at heap_point3 a)
          ∧ derives_from heap_point3 a UserStruct)
  ∧ (∀ a, PyRef Point3 = PyRef a → class_at heap_point3 a = None →
       is_user_struct heap_point3 (PyRef Point3) = false)
  ∧ (∀ a i, PyRef Point3 = PyRef a → inst_at heap_point3 a = Some i →
       is_user_struct heap_point3 (PyRef Point3) = false)
  ∧ ((∀ a, PyRef Point3 ≠ PyRef a) →
     is_user_struct heap_point3 (PyRef Point3) = false).
Proof.
  apply (C10_is_user_struct_iff_derived_class heap_point3 (PyRef Point3)).
  apply reachable_inv, reachable_heap_point3.
Defined.

(** ** The scenario of the specification, run *)

Example scenario_construct_Point :
  construct Point xy heap_xy
  = (Return 6, heap_xy ++ [OInst (mkInst Point (Some xy))]).
Proof. reflexivity. Qed.

Example scenario_read_x :
  (__getattr__ 6 "x" (construct Point xy heap_xy).2).1 = Return (PyInt 3).
Proof. reflexivity. Qed.

Example scenario_read_unknown :
  (__getattr__ 6 "w" (construct Point xy heap_xy).2).1
  = Raise (AttributeError "'Point' object has no attribute 'w'").
Proof. reflexivity. Qed.

Example scenario_missing_member :
  (construct Point 5 (heap_point ++ [ODict [("x", PyInt 3)]])).1
  = Raise (ValueError "Cannot map 'values' to this struct").
Proof. reflexivity. Qed.

Example scenario_extra_member :
  (construct Point 5
     (heap_point
      ++ [ODict [("x", PyInt 3); ("y", PyInt 4); ("z", PyInt 5)]])).1
  = Raise (ValueError "Cannot map 'values' to this struct").
Proof. reflexivity. Qed.

Example scenario_collision :
  (define_new Point "Bad" [("x", PyInt 0)] false heap_point).1
  = Raise (ValueError "'members' contains keys that overlap with parent").
Proof. reflexivity. Qed.

Example scenario_collision_two_levels_up :
  (define_new Point3 "Bad" [("x", PyInt 0)] false heap_point3).1
  = Raise (ValueError "'members' contains keys that overlap with parent").
Proof. reflexivity. Qed.

Example scenario_abstract_root :
  (construct UserStruct 3 (heap_init ++ [ODict []])).1
  = Raise (TypeError "Cannot create instance of an abstract struct type").
Proof. reflexivity. Qed.

Example scenario_member_names_in_order :
  member_names heap_point3 Point3 = Some ["x"; "y"; "z"].
Proof. reflexivity. Qed.

Example scenario_is_user_struct :
  is_user_struct (construct Point xy heap_xy).2 (PyRef UserStruct) = true
  ∧ is_user_struct (construct Point xy heap_xy).2 (PyRef Point) = true
  ∧ is_user_struct (construct Point xy heap_xy).2 (PyRef 6) = false
  ∧ is_user_struct (construct Point xy heap_xy).2 (PyRef object_) = false
  ∧ is_user_struct (construct Point xy heap_xy).2 (PyRef xy) = false
  ∧ is_user_struct (construct Point xy heap_xy).2 (PyInt 7) = false.
Proof. repeat split. Qed.

(** ** More on the parent scope: [_set_parent_scope] *)

Section replace_class.
Context (h : list Obj) (cls : nat) (c c' : ClassObj).
Context (Hc : class_at h cls = Some c).

Lemma class_at_replace k :
  class_at (<[cls := OClass c']> h) k
  = if decide (k = cls) then Some c' else class_at h k.
Proof.
  pose proof Hc as Hlt. apply class_at_Some, lookup_lt_Some in Hlt.
  unfold class_at. destruct (decide (k = cls)) as [->|Hne].
  - by rewrite list_lookup_insert_eq.
  - by rewrite list_lookup_insert_ne.
Qed.

Lemma dict_at_replace k : dict_at (<[cls := OClass c']> h) k = dict_at h k.
Proof.
  pose proof Hc as Hlt. apply class_at_Some in Hlt.
  unfold dict_at. destruct (decide (k = cls)) as [->|Hne].
  - rewrite list_lookup_insert_eq by by eapply lookup_lt_Some.
    by rewrite Hlt.
  - by rewrite list_lookup_insert_ne.
Qed.

Lemma inst_at_replace k : inst_at (<[cls := OClass c']> h) k = inst_at h k.
Proof.
  pose proof Hc as Hlt. apply class_at_Some in Hlt.
  unfold inst_at. destruct (decide (k = cls)) as [->|Hne].
  - rewrite list_lookup_insert_eq by by eapply lookup_lt_Some.
    by rewrite Hlt.
  - by rewrite list_lookup_insert_ne.
Qed.

(** An attribute the replacement leaves as it was resolves as before. *)
Lemma mro_lookup_replace {A} (field : ClassObj → option A) mro :
  field c' = field c →
  mro_lookup field (<[cls := OClass c']> h) mro = mro_lookup field h mro.
Proof.
  intros Hfield. induction mro as [|k mro IH]; simpl; [done|].
  rewrite class_at_replace. destruct (decide (k = cls)) as [->|Hne].
  - rewrite Hc, Hfield, IH. done.
  - by rewrite IH.
Qed.

Lemma class_getattr_replace {A} (field : ClassObj → option A) a :
  field c' = field c → cls_mro c' = cls_mro c →
  class_getattr field (<[cls := OClass c']> h) a = class_getattr field h a.
Proof.
  intros Hfield Hmro. unfold class_getattr. rewrite class_at_replace.
  destruct (decide (a = cls)) as [->|Hne].
  - rewrite Hc. simpl. rewrite Hmro. by apply mro_lookup_replace.
  - destruct (class_at h a); simpl; [by apply mro_lookup_replace | done].
Qed.

(** Any attribute resolves as before along an MRO without the class. *)
Lemma mro_lookup_replace_other {A} (field : ClassObj → option A) mro :
  cls ∉ mro →
  mro_lookup field (<[cls := OClass c']> h) mro = mro_lookup field h mro.
Proof.
  induction mro as [|k mro IH]; simpl; [done|]. intros Hnin.
  rewrite class_at_replace. destruct (decide (k = cls)) as [->|Hne].
  - exfalso. apply Hnin. left.
  - rewrite IH; [done|]. intros Hin. apply Hnin. by right.
Qed.
End replace_class.

(** A class that has a [_parent_scope] entry of its own reads that entry. *)
Lemma own_parent_scope (h : list Obj) a c x :
  struct_inv h → class_at h a = Some c → cls_parent_scope c = Some x →
  get_parent_scope h a = x.
Proof.
  intros Hinv Hc Hx. destruct (mro_head h Hinv _ _ Hc) as [rest Hrest].
  unfold get_parent_scope, class_getattr. rewrite Hc. simpl.
  rewrite Hrest. simpl. by rewrite Hc, Hx.
Qed.

(** X1. [_set_parent_scope] on a class returns, and [get_parent_scope] then
    reads the scope that was set; a second call overwrites the first. *)
Theorem X1_set_parent_scope_read_back_last_wins
  (h : list Obj) cls s1 s2 :
  struct_inv h → is_Some (class_at h cls) →
  ∃ h1 h2,
    _set_parent_scope cls s1 h = (Return tt, h1)
    ∧ get_parent_scope h1 cls = Some s1
    ∧ _set_parent_scope cls s2 h1 = (Return tt, h2)
    ∧ get_parent_scope h2 cls = Some s2.
Proof.
  intros Hinv [c Hc].
  assert (∀ g s, struct_inv g → is_Some (class_at g cls) →
            _set_parent_scope cls s g
            = (Return tt, (_set_parent_scope cls s g).2)
            ∧ is_Some (class_at (_set_parent_scope cls s g).2 cls)) as Hrun.
  { intros g s _ [x Hx]. rewrite _set_parent_scope_run, Hx. simpl.
    split; [done|]. rewrite (class_at_replace g cls x _ Hx).
    destruct (decide (cls = cls)); [by eexists | done]. }
  destruct (Hrun h s1 Hinv (ex_intro _ c Hc)) as [Hr1 Hc1].
  set (h1 := (_set_parent_scope cls s1 h).2) in *.
  assert (struct_inv h1) as Hinv1.
  { eapply struct_inv_step; [apply (step_set_parent_scope cls s1)|done]. }
  destruct (Hrun h1 s2 Hinv1 Hc1) as [Hr2 _].
  exists h1, (_set_parent_scope cls s2 h1).2. split_and!; [done| |done|].
  - exact (get_parent_scope_set h cls s1 h1 Hinv Hr1).
  - exact (get_parent_scope_set h1 cls s2 _ Hinv1 Hr2).
Qed.

Lemma X1_witness :
  ∃ h1 h2,
    _set_parent_scope Point scope_a heap_point = (Return tt, h1)
    ∧ get_parent_scope h1 Point = Some scope_a
    ∧ _set_parent_scope Point scope_b h1 = (Return tt, h2)
    ∧ get_parent_scope h2 Point = Some scope_b.
Proof.
  apply (X1_set_parent_scope_read_back_last_wins heap_point Point
           scope_a scope_b).
  - apply reachable_inv, reachable_heap_point.
  - by eexists.
Defined.

(** X2. [_set_parent_scope] writes one class attribute and nothing else:
    the heap keeps its size, every dict and instance is as before, every
    class resolves the same [_members] and [_is_abstract], and a class whose
    MRO does not hold the class written to reads the same parent scope. *)
Theorem X2_set_parent_scope_frame (h : list Obj) cls scope :
  let h' := (_set_parent_scope cls scope h).2 in
  length h' = length h
  ∧ (∀ a, dict_at h' a = dict_at h a)
  ∧ (∀ a, inst_at h' a = inst_at h a)
  ∧ (∀ a, members_of h' a = members_of h a)
  ∧ (∀ a, is_abstract_of h' a = is_abstract_of h a)
  ∧ (∀ a c, class_at h a = Some c → cls ∉ cls_mro c →
       get_parent_scope h' a = get_parent_scope h a).
Proof.
  intros h'. unfold h'. rewrite _set_parent_scope_run.
  destruct (class_at h cls) as [c|] eqn:Hc; simpl; [|done].
  split_and!.
  - apply length_insert.
  - intros a. by eapply dict_at_replace.
  - intros a. by eapply inst_at_replace.
  - intros a. unfold members_of.
    rewrite (class_getattr_replace h cls c _ Hc) by done.
    destruct (class_getattr cls_members h a) as [r|]; simpl; [|done].
    by eapply dict_at_replace.
  - intros a. unfold is_abstract_of.
    by rewrite (class_getattr_replace h cls c _ Hc).
  - intros a x Hx Hnin. unfold get_parent_scope, class_getattr.
    rewrite (class_at_replace h cls c _ Hc).
    destruct (decide (a = cls)) as [->|Hne].
    + rewrite Hc in Hx. injection Hx as <-. simpl.
      rewrite Hc. simpl.
      by rewrite (mro_lookup_replace_other h cls c _ Hc).
    + rewrite Hx. simpl.
      by rewrite (mro_lookup_replace_other h cls c _ Hc).
Qed.

Lemma X2_witness :
  get_parent_scope (_set_parent_scope Point3 scope_b heap_point3).2 Point
  = get_parent_scope heap_point3 Point.
Proof.
  destruct (X2_set_parent_scope_frame heap_point3 Point3 scope_b)
    as (_&_&_&_&_&Hscope).
  eapply Hscope; [reflexivity|]. simpl.
  intros Hin. repeat (apply elem_of_cons in Hin as [Hin|Hin];
                      [discriminate|]).
  by apply elem_of_nil in Hin.
Defined.

(** X3. Once a class has been given a parent scope of its own, nothing but
    a [_set_parent_scope] on that same class changes what it reads: not a
    [_set_parent_scope] on another class (its base included), not a
    derivation, not a construction. *)
Theorem X3_own_parent_scope_is_kept (h : list Obj) D s h1 :
  struct_inv h →
  _set_parent_scope D s h = (Return tt, h1) →
  (∀ cls s', cls ≠ D →
     get_parent_scope (_set_parent_scope cls s' h1).2 D = Some s)
  ∧ (∀ B name M is_abstract,
       get_parent_scope (define_new B name M is_abstract h1).2 D = Some s)
  ∧ (∀ cls V, get_parent_scope (construct cls V h1).2 D = Some s).
Proof.
  intros Hinv Hset.
  assert (struct_inv h1) as Hinv1.
  { replace h1 with (_set_parent_scope D s h).2 by by rewrite Hset.
    eapply struct_inv_step; [apply step_set_parent_scope|done]. }
  assert (∃ c1, class_at h1 D = Some c1
                ∧ cls_parent_scope c1 = Some (Some s)) as (c1&Hc1&Hs1).
  { rewrite _set_parent_scope_run in Hset.
    destruct (class_at h D) as [c|] eqn:Hc; [|done].
    injection Hset as <-. eexists. split.
    - rewrite (class_at_replace h D c _ Hc).
      by destruct (decide (D = D)).
    - done. }
  assert (∀ h2, step h1 h2 → class_at h2 D = Some c1 →
            get_parent_scope h2 D = Some s) as Hkeep.
  { intros h2 Hstep Hc2. eapply own_parent_scope; [|exact Hc2|exact Hs1].
    by eapply struct_inv_step. }
  split_and!.
  - intros cls s' Hne. apply Hkeep; [apply step_set_parent_scope|].
    rewrite _set_parent_scope_run.
    destruct (class_at h1 cls) as [x|] eqn:Hx; simpl; [|done].
    rewrite (class_at_replace h1 cls x _ Hx).
    by destruct (decide (D = cls)).
  - intros B name M is_abstract. apply Hkeep; [apply step_define_new|].
    destruct (define_new_grows h1 B name M is_abstract) as [l ->].
    apply class_at_Some, lookup_grow. by apply class_at_Some.
  - intros cls V. apply Hkeep; [apply step_construct|].
    destruct (construct_grows h1 cls V) as [i ->].
    by rewrite class_at_new_inst.
Qed.

Lemma X3_witness :
  (∀ cls s', cls ≠ Point3 →
     get_parent_scope
       (_set_parent_scope cls s'
          (_set_parent_scope Point3 scope_a heap_point3).2).2 Point3
     = Some scope_a)
  ∧ (∀ B name M is_abstract,
       get_parent_scope
         (define_new B name M is_abstract
            (_set_parent_scope Point3 scope_a heap_point3).2).2 Point3
       = Some scope_a)
  ∧ (∀ cls V,
       get_parent_scope
         (construct cls V
            (_set_parent_scope Point3 scope_a heap_point3).2).2 Point3
       = Some scope_a).
Proof.
  apply (X3_own_parent_scope_is_kept heap_point3 Point3 scope_a
           (_set_parent_scope Point3 scope_a heap_point3).2).
  - apply reachable_inv, reachable_heap_point3.
  - reflexivity.
Defined.

(** ** More on construction and derivation *)

(** X4. A construction adds one object to the heap, the instance, and
    touches nothing else: the instance holds the value map, by reference,
    exactly when the construction returned (and then it is the value
    returned); on a raise it is left without [_values]; and every class and
    dict reads as before. *)
Theorem X4_construct_adds_one_instance (h : list Obj) cls V :
  ∃ i,
    (construct cls V h).2 = h ++ [OInst i]
    ∧ inst_class i = cls
    ∧ match (construct cls V h).1 with
      | Return self => self = length h ∧ inst_values i = Some V
      | Raise _ => inst_values i = None
      end
    ∧ (∀ a, class_at (construct cls V h).2 a = class_at h a)
    ∧ (∀ a, dict_at (construct cls V h).2 a = dict_at h a)
    ∧ (∀ a, members_of (construct cls V h).2 a = members_of h a)
    ∧ (∀ a, get_parent_scope (construct cls V h).2 a
            = get_parent_scope h a).
Proof.
  assert (∃ i, (construct cls V h).2 = h ++ [OInst i]
               ∧ inst_class i = cls
               ∧ match (construct cls V h).1 with
                 | Return self => self = length h ∧ inst_values i = Some V
                 | Raise _ => inst_values i = None
                 end) as (i&Hh&Hcls&Hres).
  { rewrite construct_run. simpl.
    destruct (is_abstract_of h cls) as [[|]|]; [by eexists| |by eexists].
    destruct (dict_at h V); [|by eexists].
    destruct (class_getattr cls_members h cls) as [r|]; [|by eexists].
    destruct (dict_at h r); [|by eexists].
    case_bool_decide; by eexists. }
  exists i. rewrite Hh. split_and!; try done.
  - intros a. apply class_at_new_inst.
  - intros a. apply dict_at_new_inst.
  - intros a. unfold members_of. rewrite class_getattr_new_inst.
    destruct (class_getattr cls_members h a); simpl; [|done].
    apply dict_at_new_inst.
  - intros a. unfold get_parent_scope. by rewrite class_getattr_new_inst.
Qed.

Lemma class_at_new_dict (h : list Obj) d k :
  class_at (h ++ [ODict d]) k = class_at h k.
Proof.
  unfold class_at. destruct (decide (k < length h)) as [Hlt|Hge].
  - by rewrite lookup_app_l.
  - rewrite (lookup_ge_None_2 h) by lia.
    destruct (decide (k = length h)) as [->|].
    + by rewrite lookup_fresh.
    + rewrite lookup_ge_None_2; [done|]. rewrite length_app. simpl. lia.
Qed.

(** [is_user_struct] looks at classes only. *)
Lemma is_user_struct_ext (h h' : list Obj) t :
  (∀ a, t = PyRef a → class_at h' a = class_at h a) →
  is_user_struct h' t = is_user_struct h t.
Proof.
  intros Hext. unfold is_user_struct, isclass, issubclass.
  destruct t as [| | | |a]; try done. by rewrite (Hext a).
Qed.

(** X5. A derivation that raises, for whatever reason, defines nothing: the
    heap has the classes it had, so [is_user_struct] answers as before on
    every value. *)
Theorem X5_failed_define_new_defines_no_class
  (h : list Obj) B name M is_abstract e :
  (define_new B name M is_abstract h).1 = Raise e →
  (∀ a, class_at (define_new B name M is_abstract h).2 a = class_at h a)
  ∧ (∀ t, is_user_struct (define_new B name M is_abstract h).2 t
          = is_user_struct h t).
Proof.
  intros Hraise.
  assert (∀ a, class_at (define_new B name M is_abstract h).2 a
               = class_at h a) as Hsame.
  { rewrite define_new_run in Hraise |- *.
    destruct (class_getattr cls_members h B) as [r|]; [|done].
    destruct (dict_at h r) as [inherited|]; [|done].
    case_bool_decide; simpl; [intros a; apply class_at_new_dict|].
    destruct (class_at h B); [done|]. intros a. apply class_at_new_dict. }
  split; [done|]. intros t. apply is_user_struct_ext. by intros a _.
Qed.

Lemma X5_witness :
  (∀ a, class_at (define_new Point "Bad" [("x", PyInt 0)] false
                    heap_point).2 a = class_at heap_point a)
  ∧ (∀ t, is_user_struct (define_new Point "Bad" [("x", PyInt 0)] false
                            heap_point).2 t
          = is_user_struct heap_point t).
Proof.
  apply (X5_failed_define_new_defines_no_class heap_point Point "Bad"
           [("x", PyInt 0)] false
           (ValueError "'members' contains keys that overlap with parent")).
  reflexivity.
Defined.

(** X6. What a derivation from a descriptor returns is a new class, named
    as asked, whose base is the descriptor it was derived from, and
    [is_user_struct] is true of it. *)
Theorem X6_derived_class_is_user_struct
  (h : list Obj) B name M is_abstract D h' :
  struct_inv h → is_descriptor h B →
  define_new B name M is_abstract h = (Return D, h') →
  h !! D = None
  ∧ (∃ c, class_at h' D = Some c ∧ cls_name c = name
          ∧ cls_base c = Some B)
  ∧ is_user_struct h' (PyRef D) = true
  ∧ derives_from h' D B
  ∧ derives_from h' D UserStruct.
Proof.
  intros Hinv HB Hrun.
  assert (struct_inv h') as Hinv'.
  { replace h' with (define_new B name M is_abstract h).2
      by by rewrite Hrun.
    eapply struct_inv_step; [apply step_define_new|done]. }
  destruct (descriptor_members h Hinv B HB) as [dB HdB].
  destruct (define_new_outcome h B name M is_abstract dB HdB)
    as (r&base&_&_&Hbase&Hout).
  rewrite Hout in Hrun. case_bool_decide; [done|].
  injection Hrun as <- <-.
  destruct (derived_class_reads h name B base is_abstract
              (dict_update dB M)) as (HD&_&_).
  destruct HB as (c&Hc&Hin). assert (c = base) as -> by congruence.
  assert (UserStruct ∈ cls_mro (derived_class name B base (S (length h))
                                  (length h) is_abstract)) as HinD.
  { simpl. by right. }
  split_and!.
  - apply lookup_ge_None_2. lia.
  - by eexists.
  - unfold is_user_struct, isclass, issubclass. rewrite HD. simpl.
    by rewrite bool_decide_eq_true_2.
  - eapply rtc_l; [|apply rtc_refl]. by eexists.
  - by apply (mro_derives _ Hinv' _ _ _ HD).
Qed.

Lemma X6_witness :
  heap_point !! Point3 = None
  ∧ (∃ c, class_at heap_point3 Point3 = Some c ∧ cls_name c = "Point3"
          ∧ cls_base c = Some Point)
  ∧ is_user_struct heap_point3 (PyRef Point3) = true
  ∧ derives_from heap_point3 Point3 Point
  ∧ derives_from heap_point3 Point3 UserStruct.
Proof.
  apply (X6_derived_class_is_user_struct heap_point Point "Point3"
           [("z", PyInt 0)] false Point3 heap_point3).
  - apply reachable_inv, reachable_heap_point.
  - eexists. split; [reflexivity|]. simpl. set_solver.
  - reflexivity.
Defined.

(** ** More on [is_user_struct] *)

(** X7. The answer of [is_user_struct] on a reference to an object that
    exists never changes in the rest of the run: a struct type stays one, an
    instance or a dict never becomes one. *)
Theorem X7_is_user_struct_is_stable (h h' : list Obj) a :
  a < length h → rtc step h h' →
  is_user_struct h' (PyRef a) = is_user_struct h (PyRef a).
Proof.
  intros Hlt Hsteps. pose proof (steps_frame _ _ Hsteps) as Hf.
  destruct (lookup_lt_is_Some_2 h a Hlt) as [o Ho].
  unfold is_user_struct, isclass, issubclass. destruct o as [c|d|i].
  - apply class_at_Some in Ho.
    destruct (frame_class _ _ Hf _ _ Ho) as (c'&Hc'&(_&_&Hmro&_)).
    by rewrite Ho, Hc', Hmro.
  - apply dict_at_Some in Ho. pose proof (frame_dict _ _ Hf _ _ Ho) as Ho'.
    apply dict_at_Some in Ho, Ho'. unfold class_at. by rewrite Ho, Ho'.
  - apply inst_at_Some in Ho. pose proof (frame_inst _ _ Hf _ _ Ho) as Ho'.
    apply inst_at_Some in Ho, Ho'. unfold class_at. by rewrite Ho, Ho'.
Qed.

Lemma X7_witness :
  is_user_struct heap_point3 (PyRef Point)
  = is_user_struct heap_point (PyRef Point).
Proof.
  apply (X7_is_user_struct_is_stable heap_point heap_point3 Point).
  - vm_compute. lia.
  - eapply rtc_l; [apply step_define_new|]. apply rtc_refl.
Defined.

Lemma only_struct_classes_init : only_struct_classes heap_init.
Proof.
  split.
  - eexists. split_and!; reflexivity.
  - intros a c Hc. apply class_at_Some in Hc.
    destruct a as [|[|[|a]]]; simpl in Hc; simplify_eq; [by left|].
    right. simpl. left.
Qed.

Lemma only_struct_classes_preserved h h' :
  frame h h' → classes_from h h' →
  only_struct_classes h → only_struct_classes h'.
Proof.
  intros Hf Hfrom [(o&Ho&Hm&Hmro) Hall]. split.
  - destruct (frame_class _ _ Hf _ _ Ho) as (o'&Ho'&(_&_&Hmro'&Hm'&_)).
    exists o'. split_and!; [done|congruence|congruence].
  - intros a c' Hc'.
    destruct (Hfrom _ _ Hc') as [(c&Hc&(_&_&Hl&_))|[_ Hnew]].
    + rewrite Hl. by eapply Hall.
    + destruct Hnew as (b&bc&r&d0&d&_&Hbc&Hmro'&_&_&Hd0&_).
      right. rewrite Hmro'. right.
      destruct (Hall _ _ Hbc) as [->|Hin]; [|done].
      exfalso. unfold members_of, class_getattr in Hd0.
      rewrite Ho in Hd0. simpl in Hd0. rewrite Hmro in Hd0.
      simpl in Hd0. by rewrite Ho, Hm in Hd0.
Qed.

Lemma reachable_only_struct_classes h :
  reachable h → only_struct_classes h.
Proof.
  unfold reachable. intros Hr. revert h Hr. apply rtc_ind_r.
  - apply only_struct_classes_init.
  - intros h1 h2 _ Hs IH.
    eapply only_struct_classes_preserved;
      [by apply step_frame | by apply step_classes_from | done].
Qed.

(** X8. At every point of a run [is_user_struct] is true of every class of
    the heap but [object], and false of [object]: the module defines no
    class that is not a struct type, and no call on [object] or on a value
    that is not a struct type derives one. *)
Theorem X8_every_class_of_a_run_is_a_struct_type (h : list Obj) a :
  reachable h → is_Some (class_at h a) →
  is_user_struct h (PyRef a) = bool_decide (a ≠ object_).
Proof.
  intros Hr [c Hc].
  destruct (reachable_only_struct_classes h Hr) as [(o&Ho&_&Hmro) Hall].
  unfold is_user_struct, isclass, issubclass. rewrite Hc. simpl.
  destruct (decide (a = object_)) as [->|Hne].
  - rewrite Ho in Hc. injection Hc as <-. rewrite Hmro.
    rewrite bool_decide_eq_false_2; [by rewrite bool_decide_eq_false_2; auto|].
    intros Hin. apply list_elem_of_singleton in Hin. discriminate.
  - rewrite (bool_decide_eq_true_2 (a ≠ object_)) by done.
    apply bool_decide_eq_true_2.
    by destruct (Hall _ _ Hc).
Qed.

Lemma X8_witness :
  is_user_struct heap_point3 (PyRef Point3) = bool_decide (Point3 ≠ object_).
Proof.
  apply (X8_every_class_of_a_run_is_a_struct_type heap_point3 Point3).
  - apply reachable_heap_point3.
  - by eexists.
Defined.

(** ** More on member reads *)

Lemma dict_get_setitem k v (d : list (string * PyVal)) :
  dict_get k (dict_setitem k v d) = Some v.
Proof.
  induction d as [|[k' v'] d IH]; simpl.
  - by rewrite decide_True.
  - destruct (decide (k = k')) as [->|Hne]; simpl.
    + by rewrite decide_True.
    + by rewrite decide_False.
Qed.

Lemma dict_get_setitem_ne k k' v (d : list (string * PyVal)) :
  k' ≠ k → dict_get k' (dict_setitem k v d) = dict_get k' d.
Proof.
  intros Hne. induction d as [|[k0 v0] d IH]; simpl.
  - by rewrite decide_False.
  - destruct (decide (k = k0)) as [->|Hne0]; simpl.
    + by rewrite !decide_False.
    + destruct (decide (k' = k0)); [done | apply IH].
Qed.

(** What [__getattr__] does on an instance that holds a value map. *)
Lemma getattr_run (h : list Obj) self D V dV name :
  inst_at h self = Some (mkInst D (Some V)) →
  dict_at h V = Some dV →
  name ≠ "__setstate__" →
  __getattr__ self name h =
  match dict_get name dV with
  | Some v => (Return v, h)
  | None =>
      match class_at h D with
      | Some c =>
          (Raise (AttributeError ("'" +:+ cls_name c
                                  +:+ "' object has no attribute '"
                                  +:+ name +:+ "'")), h)
      | None => (Raise (TypeError "not a class"), h)
      end
  end.
Proof.
  intros Hi HV Hne. unfold __getattr__.
  rewrite bool_decide_eq_false_2 by done. unfold_M.
  rewrite Hi. simpl. rewrite HV. simpl. unfold dict_contains.
  destruct (dict_get name dV) as [v|] eqn:Hv.
  - rewrite bool_decide_eq_true_2; [done | by eexists].
  - rewrite bool_decide_eq_false_2; [|by intros [? ?]].
    by destruct (class_at h D).
Qed.

(** What a returned derivation and a returned construction did. *)
Lemma define_new_returns (h : list Obj) B name M is_abstract D h' :
  define_new B name M is_abstract h = (Return D, h') →
  ∃ base inherited,
    class_at h B = Some base ∧ members_of h B = Some inherited
    ∧ py_set (dict_keys inherited) ∩ py_set (dict_keys M) = ∅
    ∧ D = S (length h)
    ∧ h' = h ++ [ODict (dict_update inherited M);
                 OClass (derived_class name B base (S (length h))
                           (length h) is_abstract)].
Proof.
  rewrite define_new_run. unfold members_of.
  destruct (class_getattr cls_members h B) as [r|]; [|done]. simpl.
  destruct (dict_at h r) as [inherited|]; [|done].
  case_bool_decide as Hcoll; [done|].
  destruct (class_at h B) as [base|]; [|done].
  intros [= <- <-]. by exists base, inherited.
Qed.

Lemma construct_returns (h : list Obj) D V self h' :
  construct D V h = (Return self, h') →
  ∃ vs ms,
    is_abstract_of h D = Some false ∧ dict_at h V = Some vs
    ∧ members_of h D = Some ms
    ∧ py_set (dict_keys vs) = py_set (dict_keys ms)
    ∧ self = length h
    ∧ h' = h ++ [OInst (mkInst D (Some V))].
Proof.
  rewrite construct_run. simpl. unfold members_of.
  destruct (is_abstract_of h D) as [[|]|]; [done| |done].
  destruct (dict_at h V) as [vs|]; [|done].
  destruct (class_getattr cls_members h D) as [r|]; [|done]. simpl.
  destruct (dict_at h r) as [ms|]; [|done].
  case_bool_decide as Hkeys; [done|].
  intros [= <- <-]. by exists vs, ms.
Qed.

(** X9. A constructed value keeps the caller's value map itself, not a
    copy: when the owner of the map later assigns [V[k] = v], the read of
    [k] on the value returns [v], member name or not, and the reads of the
    other names are as they were. *)
Theorem X9_value_map_is_shared_with_the_caller
  (h : list Obj) D V self h1 k v :
  construct D V h = (Return self, h1) →
  k ≠ "__setstate__" →
  ∃ h2,
    caller_setitem V k v h1 = (Return tt, h2)
    ∧ __getattr__ self k h2 = (Return v, h2)
    ∧ (∀ k', k' ≠ k →
         (__getattr__ self k' h2).1 = (__getattr__ self k' h1).1).
Proof.
  intros Hrun Hk.
  destruct (construct_returns h D V self h1 Hrun)
    as (vs&ms&_&HV&_&_&->&->).
  set (h1 := h ++ [OInst (mkInst D (Some V))]).
  assert (dict_at h1 V = Some vs) as HV1.
  { unfold h1. by rewrite dict_at_new_inst. }
  assert (inst_at h1 (length h) = Some (mkInst D (Some V))) as Hi1.
  { unfold inst_at, h1. by rewrite lookup_fresh. }
  pose proof HV1 as HVo. apply dict_at_Some in HVo.
  pose proof (lookup_lt_Some _ _ _ HVo) as HVlt.
  set (h2 := <[V := ODict (dict_setitem k v vs)]> h1).
  assert (dict_at h2 V = Some (dict_setitem k v vs)) as HV2.
  { unfold dict_at, h2. by rewrite list_lookup_insert_eq. }
  assert (length h ≠ V) as Hne.
  { intros <-. apply inst_at_Some in Hi1. congruence. }
  assert (inst_at h2 (length h) = Some (mkInst D (Some V))) as Hi2.
  { unfold inst_at, h2. rewrite list_lookup_insert_ne by done.
    apply inst_at_Some in Hi1. by rewrite Hi1. }
  assert (class_at h2 D = class_at h1 D) as Hc2.
  { unfold class_at, h2. destruct (decide (V = D)) as [<-|HneD].
    - rewrite list_lookup_insert_eq by done. by rewrite HVo.
    - by rewrite list_lookup_insert_ne. }
  exists h2. split_and!.
  - unfold caller_setitem. unfold_M. by rewrite HV1.
  - rewrite (getattr_run h2 _ D V _ k Hi2 HV2 Hk).
    by rewrite dict_get_setitem.
  - intros k' Hk'. destruct (decide (k' = "__setstate__")) as [->|Hs].
    + unfold __getattr__. by rewrite !bool_decide_eq_true_2.
    + rewrite (getattr_run h2 _ D V _ k' Hi2 HV2 Hs).
      rewrite (getattr_run h1 _ D V _ k' Hi1 HV1 Hs).
      rewrite dict_get_setitem_ne by done. rewrite Hc2.
      destruct (dict_get k' vs); [done|]. by destruct (class_at h1 D).
Qed.

Lemma X9_witness :
  ∃ h2,
    caller_setitem xy "w" (PyInt 9) (construct Point xy heap_xy).2
    = (Return tt, h2)
    ∧ __getattr__ 6 "w" h2 = (Return (PyInt 9), h2)
    ∧ (∀ k', k' ≠ "w" →
         (__getattr__ 6 k' h2).1
         = (__getattr__ 6 k' (construct Point xy heap_xy).2).1).
Proof.
  apply (X9_value_map_is_shared_with_the_caller heap_xy Point xy 6
           (construct Point xy heap_xy).2 "w" (PyInt 9)).
  - reflexivity.
  - discriminate.
Defined.

(** ** Derivation, construction and reads together *)

(** X10. Inherited members are members of the derived type's values:
    derive a concrete type from [B] with new members [M], construct a value
    of it from a map whose keys are the names of [B] and of [M]; both
    succeed, and the read of each of those names (but ["__setstate__"])
    returns the map's entry, for the inherited names as for the new ones. *)
Theorem X10_derive_construct_read
  (h : list Obj) B name M V dB dV :
  members_of h B = Some dB →
  NoDup (dict_keys M) →
  (∀ k, k ∈ dict_keys M → k ∉ dict_keys dB) →
  dict_at h V = Some dV →
  (∀ k, k ∈ dict_keys dV ↔ k ∈ dict_keys dB ∨ k ∈ dict_keys M) →
  ∃ D h1 self h2,
    define_new B name M false h = (Return D, h1)
    ∧ construct D V h1 = (Return self, h2)
    ∧ ∀ k, k ∈ dict_keys dB ∨ k ∈ dict_keys M → k ≠ "__setstate__" →
        ∃ v, dict_get k dV = Some v
             ∧ __getattr__ self k h2 = (Return v, h2).
Proof.
  intros HB Hnd Hdisj HV Hkeys.
  destruct (define_new_outcome h B name M false dB HB)
    as (r&base&_&_&_&Hrun).
  rewrite bool_decide_eq_false_2 in Hrun.
  2:{ rewrite py_set_intersect. intros (k&Hk1&Hk2). by eapply Hdisj. }
  rewrite dict_update_disjoint in Hrun by done.
  destruct (derived_class_reads h name B base false (dB ++ M))
    as (HD&Hm&Ha).
  set (D := S (length h)) in *.
  set (h1 := h ++ [ODict (dB ++ M);
                   OClass (derived_class name B base D (length h) false)])
    in *.
  assert (dict_at h1 V = Some dV) as HV1.
  { by apply (frame_dict _ _ (frame_grow h _)). }
  pose proof (construct_outcome h1 D V (dB ++ M) dV Ha Hm HV1) as Hc.
  rewrite bool_decide_eq_false_2 in Hc.
  2:{ intros Hne. apply Hne, py_set_eq. intros k.
      rewrite Hkeys, dict_keys_app. by rewrite elem_of_app. }
  destruct (constructed_reads h1 D V dV HV1) as [Hi Hvs].
  exists D, h1, (length h1), (h1 ++ [OInst (mkInst D (Some V))]).
  split_and!; [done|done|].
  intros k Hk Hs. apply Hkeys in Hk.
  destruct (proj2 (dict_get_is_Some k dV) Hk) as [v Hv].
  exists v. split; [done|].
  rewrite (getattr_run _ _ D V dV k Hi); [by rewrite Hv| |done].
  by rewrite dict_at_new_inst.
Qed.

(** The value map [{x: 3, y: 4, z: 5}], built by the caller. *)
Lemma X10_witness :
  ∃ D h1 self h2,
    define_new Point "Point3" [("z", PyInt 0)] false
      (heap_point ++ [ODict [("x", PyInt 3); ("y", PyInt 4); ("z", PyInt 5)]])
    = (Return D, h1)
    ∧ construct D 5 h1 = (Return self, h2)
    ∧ ∀ k, k ∈ dict_keys [("x", PyInt 0); ("y", PyInt 0)]
           ∨ k ∈ dict_keys [("z", PyInt 0)] →
           k ≠ "__setstate__" →
        ∃ v, dict_get k [("x", PyInt 3); ("y", PyInt 4); ("z", PyInt 5)]
             = Some v
             ∧ __getattr__ self k h2 = (Return v, h2).
Proof.
  apply (X10_derive_construct_read
           (heap_point
            ++ [ODict [("x", PyInt 3); ("y", PyInt 4); ("z", PyInt 5)]])
           Point "Point3" [("z", PyInt 0)] 5
           [("x", PyInt 0); ("y", PyInt 0)]
           [("x", PyInt 3); ("y", PyInt 4); ("z", PyInt 5)]).
  - reflexivity.
  - apply NoDup_singleton.
  - intros k Hk Hin. apply list_elem_of_singleton in Hk. subst k.
    apply elem_of_cons in Hin as [Hin|Hin]; [discriminate|].
    apply list_elem_of_singleton in Hin. discriminate.
  - reflexivity.
  - intros k. simpl. rewrite !elem_of_cons, !elem_of_nil. tauto.
Defined.

(** X11. The [AttributeError] of a read of an unknown name carries the
    name the struct type was derived under: on a value of the type
    [define_new] returned for [name], the read of [n], neither a key of the
    value map nor ["__setstate__"], raises
    ['<name>' object has no attribute '<n>'], and changes nothing. *)
Theorem X11_unknown_member_message
  (h : list Obj) B name M is_abstract D h1 V self h2 n :
  define_new B name M is_abstract h = (Return D, h1) →
  construct D V h1 = (Return self, h2) →
  n ≠ "__setstate__" →
  (∀ dV, dict_at h1 V = Some dV → n ∉ dict_keys dV) →
  __getattr__ self n h2
  = (Raise (AttributeError ("'" +:+ name +:+ "' object has no attribute '"
                            +:+ n +:+ "'")), h2).
Proof.
  intros Hnew Hcons Hn Hnin.
  destruct (define_new_returns _ _ _ _ _ _ _ Hnew)
    as (base&inherited&_&_&_&->&->).
  destruct (derived_class_reads h name B base is_abstract
              (dict_update inherited M)) as (HD&_&_).
  destruct (construct_returns _ _ _ _ _ Hcons) as (vs&ms&_&HV&_&_&->&->).
  rewrite (getattr_run _ _ (S (length h)) V vs n);
    [| |by rewrite dict_at_new_inst|done].
  - rewrite (proj2 (dict_get_None n vs) (Hnin vs HV)).
    by rewrite class_at_new_inst, HD.
  - unfold inst_at. by rewrite lookup_fresh.
Qed.

Lemma X11_witness :
  let h := heap_init ++ [ODict [("y", PyInt 4); ("x", PyInt 3)]] in
  let h1 :=
    (define_new UserStruct "Point" [("x", PyInt 0); ("y", PyInt 0)] false
       h).2 in
  __getattr__ 6 "w" (construct 5 3 h1).2
  = (Raise (AttributeError ("'" +:+ "Point"
                            +:+ "' object has no attribute '"
                            +:+ "w" +:+ "'")),
     (construct 5 3 h1).2).
Proof.
  intros h h1.
  apply (X11_unknown_member_message h UserStruct "Point"
           [("x", PyInt 0); ("y", PyInt 0)] false 5 h1 3 6
           (construct 5 3 h1).2 "w").
  - reflexivity.
  - reflexivity.
  - discriminate.
  - intros dV HdV. vm_compute in HdV. injection HdV as <-.
    intros Hin. simpl in Hin.
    repeat (apply elem_of_cons in Hin as [Hin|Hin]; [discriminate|]).
    by apply elem_of_nil in Hin.
Defined.

(** X12. Whether a struct type is abstract is decided at its own
    derivation and not inherited: on the type [define_new] returned,
    construction raises the [TypeError] of abstract instantiation exactly
    when [is_abstract] was passed as true, whatever the base is. *)
Theorem X12_abstract_is_per_type
  (h : list Obj) B name M is_abstract D h1 V :
  define_new B name M is_abstract h = (Return D, h1) →
  (construct D V h1).1
  = Raise (TypeError "Cannot create instance of an abstract struct type")
  ↔ is_abstract = true.
Proof.
  intros Hnew.
  destruct (define_new_returns _ _ _ _ _ _ _ Hnew)
    as (base&inherited&_&_&_&->&->).
  destruct (derived_class_reads h name B base is_abstract
              (dict_update inherited M)) as (_&_&Ha).
  rewrite construct_run. simpl. rewrite Ha.
  destruct is_abstract; [done|]. split; [|done].
  match goal with |- context [dict_at ?g V] => destruct (dict_at g V) end;
    [|done].
  match goal with
  | |- context [class_getattr cls_members ?g ?d] =>
      destruct (class_getattr cls_members g d) as [r|]
  end; [|done].
  match goal with |- context [dict_at ?g r] => destruct (dict_at g r) end;
    [|done].
  by case_bool_decide.
Qed.

Lemma X12_witness :
  (construct 4 5
     (define_new UserStruct "Shape" [("area", PyInt 0)] true heap_init).2).1
  = Raise (TypeError "Cannot create instance of an abstract struct type")
  ↔ true = true.
Proof.
  apply (X12_abstract_is_per_type heap_init UserStruct "Shape"
           [("area", PyInt 0)] true 4
           (define_new UserStruct "Shape" [("area", PyInt 0)] true
              heap_init).2 5).
  reflexivity.
Defined.

(** X13. Deriving twice with the same name and the same members gives two
    different struct types, each with the members asked for: the name
    identifies nothing, and no earlier derivation makes a later one fail. *)
Theorem X13_same_name_twice (h : list Obj) B name M is_abstract dB :
  members_of h B = Some dB →
  NoDup (dict_keys M) →
  (∀ k, k ∈ dict_keys M → k ∉ dict_keys dB) →
  ∃ D1 h1 D2 h2 c1 c2,
    define_new B name M is_abstract h = (Return D1, h1)
    ∧ define_new B name M is_abstract h1 = (Return D2, h2)
    ∧ D1 ≠ D2
    ∧ class_at h2 D1 = Some c1 ∧ class_at h2 D2 = Some c2
    ∧ cls_name c1 = name ∧ cls_name c2 = name
    ∧ members_of h2 D1 = Some (dB ++ M)
    ∧ members_of h2 D2 = Some (dB ++ M).
Proof.
  intros HB Hnd Hdisj.
  assert (∀ g, members_of g B = Some dB →
            ∃ base,
              define_new B name M is_abstract g
              = (Return (S (length g)),
                 g ++ [ODict (dB ++ M);
                       OClass (derived_class name B base (S (length g))
                                 (length g) is_abstract)])) as Hrun.
  { intros g Hg.
    destruct (define_new_outcome g B name M is_abstract dB Hg)
      as (r&base&_&_&_&Hout).
    rewrite bool_decide_eq_false_2 in Hout.
    2:{ rewrite py_set_intersect. intros (k&Hk1&Hk2). by eapply Hdisj. }
    rewrite dict_update_disjoint in Hout by done. by exists base. }
  destruct (Hrun h HB) as [base1 Hr1].
  destruct (derived_class_reads h name B base1 is_abstract (dB ++ M))
    as (HD1&Hm1&_).
  set (h1 := h ++ [ODict (dB ++ M);
                   OClass (derived_class name B base1 (S (length h))
                             (length h) is_abstract)]) in *.
  assert (members_of h1 B = Some dB) as HB1.
  { by apply (members_of_frame _ _ (frame_grow h _)). }
  destruct (Hrun h1 HB1) as [base2 Hr2].
  destruct (derived_class_reads h1 name B base2 is_abstract (dB ++ M))
    as (HD2&Hm2&_).
  set (h2 := h1 ++ [ODict (dB ++ M);
                    OClass (derived_class name B base2 (S (length h1))
                              (length h1) is_abstract)]) in *.
  pose proof (frame_grow h1
                [ODict (dB ++ M);
                 OClass (derived_class name B base2 (S (length h1))
                           (length h1) is_abstract)]) as Hf.
  eexists (S (length h)), h1, (S (length h1)), h2, _, _.
  split_and!; [done|done| | |exact HD2|  |  | |done].
  - unfold h1. rewrite length_app. simpl. lia.
  - apply class_at_Some, lookup_grow, class_at_Some, HD1.
  - done.
  - done.
  - by apply (members_of_frame _ _ Hf).
Qed.

Lemma X13_witness :
  ∃ D1 h1 D2 h2 c1 c2,
    define_new Point "Point3" [("z", PyInt 0)] false heap_point
    = (Return D1, h1)
    ∧ define_new Point "Point3" [("z", PyInt 0)] false h1 = (Return D2, h2)
    ∧ D1 ≠ D2
    ∧ class_at h2 D1 = Some c1 ∧ class_at h2 D2 = Some c2
    ∧ cls_name c1 = "Point3" ∧ cls_name c2 = "Point3"
    ∧ members_of h2 D1
      = Some ([("x", PyInt 0); ("y", PyInt 0)] ++ [("z", PyInt 0)])
    ∧ members_of h2 D2
      = Some ([("x", PyInt 0); ("y", PyInt 0)] ++ [("z", PyInt 0)]).
Proof.
  apply (X13_same_name_twice heap_point Point "Point3" [("z", PyInt 0)]
           false [("x", PyInt 0); ("y", PyInt 0)]).
  - reflexivity.
  - apply NoDup_singleton.
  - intros k Hk Hin. apply list_elem_of_singleton in Hk. subst k.
    apply elem_of_cons in Hin as [Hin|Hin]; [discriminate|].
    apply list_elem_of_singleton in Hin. discriminate.
Defined.

(** ** The display: [__repr__] *)

(** [__repr__], run. *)
Lemma __repr___run (py_id : nat → nat) (h : list Obj) self :
  __repr__ py_id self h =
  match inst_at h self with
  | None => (Raise (TypeError "not an instance"), h)
  | Some i =>
      match class_at h (inst_class i) with
      | None => (Raise (TypeError "not a class"), h)
      | Some c =>
          match class_getattr cls_members h (inst_class i) with
          | None => (Raise (AttributeError "_members"), h)
          | Some r =>
              match dict_at h r with
              | None => (Raise (AttributeError "keys"), h)
              | Some ms =>
                  (Return ("<struct '" +:+ cls_name c +:+ "' "
                           +:+ ("(" +:+ String.concat ", " (dict_keys ms)
                                +:+ ")")
                           +:+ " at 0x" +:+ hex (py_id self) +:+ ">"), h)
              end
          end
      end
  end.
Proof.
  unfold __repr__. unfold_M.
  destruct (inst_at h self) as [i|] eqn:Hi; simpl; [|done].
  destruct (class_at h (inst_class i)) as [c|]; simpl; [|done].
  rewrite Hi. simpl.
  destruct (class_getattr cls_members h (inst_class i)) as [r|]; simpl;
    [|done].
  by destruct (dict_at h r).
Qed.

(** X14. On an instance of a struct type, initialised or not, [__repr__]
    returns and changes nothing; the text is the type's name, its member
    names in declaration order (inherited first) joined by [", "], and the
    instance's id in hexadecimal; no member value occurs in it, and it is
    the same text at every later point of the run. *)
Theorem X14_repr (py_id : nat → nat) (h : list Obj) self i :
  struct_inv h →
  inst_at h self = Some i →
  is_descriptor h (inst_class i) →
  ∃ c names,
    class_at h (inst_class i) = Some c
    ∧ member_names h (inst_class i) = Some names
    ∧ ∀ h', rtc step h h' →
        __repr__ py_id self h'
        = (Return ("<struct '" +:+ cls_name c +:+ "' "
                   +:+ ("(" +:+ String.concat ", " names +:+ ")")
                   +:+ " at 0x" +:+ hex (py_id self) +:+ ">"), h').
Proof.
  intros Hinv Hi HD. destruct (descriptor_members h Hinv _ HD) as [ms Hms].
  destruct HD as (c&Hc&_).
  exists c, (dict_keys ms). split_and!; [done| |].
  - unfold member_names. by rewrite Hms.
  - intros h' Hsteps. pose proof (steps_frame _ _ Hsteps) as Hf.
    pose proof (frame_inst _ _ Hf _ _ Hi) as Hi'.
    destruct (frame_class _ _ Hf _ _ Hc) as (c'&Hc'&(Hname&_)).
    pose proof (members_of_frame _ _ Hf _ _ Hms) as Hms'.
    unfold members_of in Hms'.
    destruct (class_getattr cls_members h' (inst_class i)) as [r|] eqn:Hr;
      [|done].
    simpl in Hms'. by rewrite __repr___run, Hi', Hc', Hr, Hms', Hname.
Qed.

Lemma X14_witness :
  ∃ c names,
    class_at (construct Point3 0 heap_point3).2 Point3 = Some c
    ∧ member_names (construct Point3 0 heap_point3).2 Point3 = Some names
    ∧ ∀ h', rtc step (construct Point3 0 heap_point3).2 h' →
        __repr__ (λ a, 4096 + a) 7 h'
        = (Return ("<struct '" +:+ cls_name c +:+ "' "
                   +:+ ("(" +:+ String.concat ", " names +:+ ")")
                   +:+ " at 0x" +:+ hex (4096 + 7) +:+ ">"), h').
Proof.
  apply (X14_repr (λ a, 4096 + a) (construct Point3 0 heap_point3).2 7
           (mkInst Point3 None)).
  - apply reachable_inv. eapply rtc_r; [apply reachable_heap_point3|].
    apply step_construct.
  - reflexivity.
  - eexists. split; [reflexivity|]. simpl. set_solver.
Defined.

Example scenario_repr :
  (__repr__ (λ a, 4096 + a) 6 (construct Point xy heap_xy).2).1
  = Return "<struct 'Point' (x, y) at 0x1006>".
Proof. reflexivity. Qed.

(** ** The values of a run *)

Lemma value_ok_frame h h' i : frame h h' → value_ok h i → value_ok h' i.
Proof.
  intros Hf Hok V HV. destruct (Hok V HV) as (vs&ms&Ha&Hvs&Hms&Hkeys).
  exists vs, ms. split_and!; [|  | |done].
  - by eapply is_abstract_of_frame.
  - by apply (frame_dict _ _ Hf).
  - by eapply members_of_frame.
Qed.

(** A construction that raises leaves an instance without [_values]. *)
Lemma construct_raises (h : list Obj) cls V e h' :
  construct cls V h = (Raise e, h') →
  h' = h ++ [OInst (mkInst cls None)].
Proof.
  rewrite construct_run. simpl.
  destruct (is_abstract_of h cls) as [[|]|]; [congruence| |congruence].
  destruct (dict_at h V); [|congruence].
  destruct (class_getattr cls_members h cls) as [r|]; [|congruence].
  destruct (dict_at h r); [|congruence].
  case_bool_decide; congruence.
Qed.

(** The instances after a step: those before it, and a new one when the
    step is a construction. *)
Lemma step_instances h h' a i :
  step h h' → inst_at h' a = Some i →
  inst_at h a = Some i ∨ value_ok h i.
Proof.
  destruct 1 as [cls name members is_abstract h|cls values h|cls scope h
                 |self name h|d h]; intros Hi.
  - left. rewrite define_new_run in Hi.
    destruct (class_getattr cls_members h cls) as [r|]; [|done].
    destruct (dict_at h r) as [inherited|]; [|done].
    revert Hi. case_bool_decide; simpl.
    + rewrite !inst_at_Some, lookup_app_Some. intros [?|[_ Hl]]; [done|].
      by destruct (a - length h) as [|[|n]].
    + destruct (class_at h cls); simpl;
        rewrite !inst_at_Some, lookup_app_Some; intros [?|[_ Hl]];
        try done; by destruct (a - length h) as [|[|n]].
  - destruct (construct (cls) values h) as [res h1] eqn:Hrun.
    simpl in Hi. destruct res as [self|e].
    + destruct (construct_returns _ _ _ _ _ Hrun)
        as (vs&ms&Ha&Hvs&Hms&Hkeys&->&->).
      revert Hi. rewrite !inst_at_Some, lookup_app_Some.
      intros [?|[_ Hl]]; [by left|]. right.
      destruct (a - length h) as [|[|n]]; simpl in Hl; simplify_eq.
      intros V [= <-]. by exists vs, ms.
    + rewrite (construct_raises _ _ _ _ _ Hrun) in Hi.
      revert Hi. rewrite !inst_at_Some, lookup_app_Some.
      intros [?|[_ Hl]]; [by left|]. right.
      destruct (a - length h) as [|[|n]]; simpl in Hl; simplify_eq.
      intros V HV. discriminate.
  - left. revert Hi. rewrite _set_parent_scope_run.
    destruct (class_at h cls) as [c|] eqn:Hc; simpl; [|done].
    by rewrite (inst_at_replace h cls c _ Hc).
  - left. by rewrite __getattr___heap in Hi.
  - left. revert Hi. rewrite !inst_at_Some, lookup_app_Some.
    intros [?|[_ Hl]]; [done|]. by destruct (a - length h) as [|[|n]].
Qed.

(** X15. At every point of a run, every instance that holds a value map is
    of a struct type that is not abstract, and the keys of its map are
    exactly the member names of its type: no call sequence produces a value
    of an abstract type or a value with a missing or an extra member. *)
Theorem X15_values_of_a_run (h : list Obj) self i :
  reachable h → inst_at h self = Some i → value_ok h i.
Proof.
  unfold reachable. intros Hr. revert h Hr self i. apply (rtc_ind_r
    (λ h, ∀ self i, inst_at h self = Some i → value_ok h i)).
  - intros self i Hi. apply inst_at_Some in Hi.
    by destruct self as [|[|[|self]]].
  - intros h1 h2 _ Hs IH self i Hi. apply (value_ok_frame h1).
    + by apply step_frame.
    + destruct (step_instances _ _ _ _ Hs Hi) as [Hold|Hnew]; [|done].
      by eapply IH.
Qed.

Lemma X15_witness :
  value_ok (construct Point xy heap_xy).2 (mkInst Point (Some xy)).
Proof.
  apply (X15_values_of_a_run (construct Point xy heap_xy).2 6).
  - unfold reachable. eapply rtc_l; [apply step_define_new|].
    eapply rtc_l;
      [apply (step_new_dict [("y", PyInt 4); ("x", PyInt 3)])|].
    eapply rtc_l; [apply (step_construct Point xy)|]. apply rtc_refl.
  - reflexivity.
Defined.

(** ** The scope path of a derived type *)

(** A class [define_new] returns has no [_parent_scope] entry of its own and
    reads the parent scope its base reads. *)
Lemma derived_parent_scope_falls_through
  (h : list Obj) B name M is_abstract D h' :
  struct_inv h →
  define_new B name M is_abstract h = (Return D, h') →
  (∃ c, class_at h' D = Some c ∧ cls_parent_scope c = None)
  ∧ get_parent_scope h' D = get_parent_scope h B.
Proof.
  intros Hinv Hnew.
  destruct (define_new_returns _ _ _ _ _ _ _ Hnew)
    as (base&inherited&Hbase&_&_&->&->).
  destruct (derived_class_reads h name B base is_abstract
              (dict_update inherited M)) as (HD&_&_).
  split; [by eexists|].
  unfold get_parent_scope, class_getattr. rewrite HD, Hbase. simpl.
  rewrite HD. simpl. rewrite mro_lookup_grow; [done|].
  by eapply mro_valid.
Qed.

(** C7 (what the code does). A descriptor on which no parent scope was ever
    set does not always have the empty scope path.  Derived from a base [B]
    on which a scope was set, it has no [_parent_scope] entry of its own,
    yet [get_scope_path] gives it the path of [B] under every separator:
    with [B] declared in the scope ["b"] inside the top-level scope ["a"],
    that is ["a::b"], and ["a#b"] under ["#"], where the claim has [""]. *)
Theorem C7_derived_descriptor_reads_base_scope_path
  (h : list Obj) B scope h1 name M is_abstract D h2 :
  struct_inv h →
  _set_parent_scope B scope h = (Return tt, h1) →
  define_new B name M is_abstract h1 = (Return D, h2) →
  (∃ c, class_at h2 D = Some c ∧ cls_parent_scope c = None)
  ∧ (∀ sep, get_scope_path h2 D sep = get_scope_path h1 B sep)
  ∧ (∀ top,
       scope = mkComponent false "b" (Some (mkComponent false "a" top)) →
       match top with None => True | Some r => is_Root r = true end →
       get_scope_path h2 D None = "a::b"
       ∧ get_scope_path h2 D (Some "#") = "a#b").
Proof.
  intros Hinv Hset Hnew.
  assert (struct_inv h1) as Hinv1.
  { replace h1 with (_set_parent_scope B scope h).2 by by rewrite Hset.
    eapply struct_inv_step; [apply step_set_parent_scope|done]. }
  destruct (derived_parent_scope_falls_through h1 B name M is_abstract D h2
              Hinv1 Hnew) as [Hown Hfall].
  pose proof (get_parent_scope_set h B scope h1 Hinv Hset) as HB.
  split_and!; [done| |].
  - intros sep. unfold get_scope_path. by rewrite Hfall.
  - intros top -> Htop.
    apply (proj1 (proj2 (proj2 (get_scope_path_cases h2 D))) top);
      [|done].
    by rewrite Hfall.
Qed.

Lemma C7_witness :
  (∃ c, class_at
          (define_new Point "Point3" [("z", PyInt 0)] false heap_scoped).2 6
        = Some c ∧ cls_parent_scope c = None)
  ∧ (∀ sep,
       get_scope_path
         (define_new Point "Point3" [("z", PyInt 0)] false heap_scoped).2 6
         sep
       = get_scope_path heap_scoped Point sep)
  ∧ (∀ top,
       scope_b = mkComponent false "b" (Some (mkComponent false "a" top)) →
       match top with None => True | Some r => is_Root r = true end →
       get_scope_path
         (define_new Point "Point3" [("z", PyInt 0)] false heap_scoped).2 6
         None = "a::b"
       ∧ get_scope_path
           (define_new Point "Point3" [("z", PyInt 0)] false heap_scoped).2
           6 (Some "#") = "a#b").
Proof.
  apply (C7_derived_descriptor_reads_base_scope_path heap_point Point
           scope_b heap_scoped "Point3" [("z", PyInt 0)] false 6
           (define_new Point "Point3" [("z", PyInt 0)] false heap_scoped).2).
  - apply reachable_inv, reachable_heap_point.
  - reflexivity.
  - reflexivity.
Defined.

Example scenario_derived_scope_path :
  get_scope_path
    (define_new Point "Point3" [("z", PyInt 0)] false heap_scoped).2 6 None
  = "a::b".
Proof. reflexivity. Qed.
